(** * JEDI catalog pipeline: a shallow embedding of [generate_jedi_catalog]

    The development follows src/generate_jedi_catalog.py.  The function is one
    long imperative script; it is cut here into the stages its comments name
    (pre-flare irradiance, dimming window, percent units, flare removal,
    fitting, parameterization, catalog write), each a computation in a small
    state-and-exception monad over the locals that survive from one flare to
    the next and over what the run leaves on disk.

    Modelling conventions.
    - An instant is an integer number of seconds ([Z]).  An astropy [Time], its
      [.iso] text and a [pd.Timestamp] built from that text all stand for the
      instant they denote, and are compared as instants.  The right bound of
      the dimming window is the one value that is a text on one path and a
      [Time] on the other (lines 234-236); it keeps its Python type
      ([time_value]), because line 248 subtracts a [Time] from it, which
      raises [TypeError] when it is a text.
    - A column is fetched by its label ([light_curve]).  The labels of
      [eve_lines] are taken to be distinct where a statement says so; on a
      duplicated label pandas hands back a frame of two columns and the
      renaming of line 214 raises, which [light_curve] does not follow.
    - [jedi_row] is the one frame the script creates before the loop and
      assigns into on every turn; it is part of the state and is never reset.
    - The four thresholds and offsets are whole minutes; the tests
      [(a - b).sec / 60.0 > m] and [... < m] are written on seconds.
    - Floating point is abstract: a sample is [option F], [None] being NaN, and
      the three arithmetic operations of the percent conversion are the fields
      of [FloatOps].
    - The six numeric routines imported by the script are parameters of the
      section.  They are total functions: a run in which one of them raises is
      outside the model.  Every call is recorded in the trace with its
      arguments.
    - Plotting, directory creation and the progress bar are left out. *)

From Stdlib Require Import ZArith List String Ascii Bool Arith Lia.
From Stdlib Require QArith.
Import ListNotations.
Local Open Scope string_scope.
Local Open Scope list_scope.

Set Implicit Arguments.

(** ** Python exceptions the script itself can raise *)

Inductive exn : Type :=
| IndexError
| UnboundLocalError (name : string)
| KeyError (label : string)
| ValueError
| TypeError.

Inductive result (A : Type) : Type :=
| Ok (a : A)
| Raise (e : exn).
Arguments Ok {A} a.
Arguments Raise {A} e.

Definition is_ok {A} (r : result A) : bool :=
  match r with Ok _ => true | Raise _ => false end.

(** ** Floating-point samples *)

Class FloatOps (F : Type) : Type := {
  fsub : F -> F -> option F;
  fdiv : F -> F -> option F;
  fmul : F -> F -> option F;
  f100 : F
}.

Section Samples.
Context {F : Type} `{FloatOps F}.

(** NaN is absorbing for every arithmetic operation. *)
Definition lift2 (op : F -> F -> option F) (a b : option F) : option F :=
  match a, b with
  | Some x, Some y => op x y
  | _, _ => None
  end.

(** One entry of [(value - baseline) / baseline * 100.0] (line 267). *)
Definition percent_entry (value baseline : option F) : option F :=
  lift2 fmul (lift2 fdiv (lift2 fsub value baseline) baseline) (Some f100).

Definition isnull (v : option F) : bool :=
  match v with None => true | Some _ => false end.

(** [series.isnull().all().all()] *)
Definition all_null (l : list (option F)) : bool := forallb isnull l.
End Samples.

(** ** Catalog cells *)

Inductive cell (F : Type) : Type :=
| NaN
| PyNone
| Num (x : F)
| Instant (t : Z)
| Text (s : string)
| Flag (b : bool).
Arguments NaN {F}.
Arguments PyNone {F}.
Arguments Num {F} x.
Arguments Instant {F} t.
Arguments Text {F} s.
Arguments Flag {F} b.

Definition cell_of_float {F} (v : option F) : cell F :=
  match v with Some x => Num x | None => NaN end.

Definition is_missing {F} (c : cell F) : bool :=
  match c with NaN | PyNone => true | _ => false end.

(** ** Labelled columns: the one-row catalog frame and the irradiance tables

    [assign] is pandas' [frame[label] = value]: every column carrying the label
    is replaced where it stands; a label the frame does not have yet is added
    as the last column. *)

Section Columns.
Variable V : Type.

Definition labels (cols : list (string * V)) : list string := map fst cols.

Fixpoint lookup (label : string) (cols : list (string * V)) : option V :=
  match cols with
  | [] => None
  | (k, v) :: rest => if String.eqb k label then Some v else lookup label rest
  end.

Definition has_label (label : string) (cols : list (string * V)) : bool :=
  existsb (String.eqb label) (labels cols).

Definition replace_label (label : string) (v : V) (cols : list (string * V))
  : list (string * V) :=
  map (fun kv => if String.eqb (fst kv) label then (fst kv, v) else kv) cols.

Definition assign (label : string) (v : V) (cols : list (string * V))
  : list (string * V) :=
  if has_label label cols then replace_label label v cols
  else cols ++ [(label, v)].
End Columns.

(** ** Strings: the labels the script builds *)

(** [' by '.join((a, b))] *)
Definition by_label (p : string * string) : string :=
  fst p ++ " by " ++ snd p.

(** [needle in s] *)
Fixpoint contains (needle s : string) : bool :=
  String.prefix needle s ||
  match s with
  | EmptyString => false
  | String _ rest => contains needle rest
  end.

(** [s.endswith(suffix)] *)
Fixpoint ends_with (suffix s : string) : bool :=
  String.eqb suffix s ||
  match s with
  | EmptyString => false
  | String _ rest => ends_with suffix rest
  end.

(** [itertools.permutations(l, 2)]: ordered pairs of distinct positions, in
    lexicographic order of the positions. *)
Definition enumerate {A} (l : list A) : list (nat * A) :=
  combine (seq 0 (List.length l)) l.

Definition permutations2 {A} (l : list A) : list (A * A) :=
  flat_map (fun ia =>
    flat_map (fun jb =>
      if Nat.eqb (fst ia) (fst jb) then [] else [(snd ia, snd jb)])
      (enumerate l))
    (enumerate l).

(** ** Data model *)

(** A flare of the GOES event list (the save-set keeps one array per field;
    the arrays have the same length, [num_flares]). *)
Record Flare : Type := {
  start_time : Z;
  peak_time : Z;
  class : string
}.

(** A single emission line handed to a numeric routine: the frame with the one
    column ['irradiance'] over the time index. *)
Record LightCurve (F : Type) : Type := {
  lc_index : list Z;
  irradiance : list (option F)
}.

(** [eve_lines] and [eve_lines_event]: emission lines by column over a shared
    time index. *)
Record DataFrame (F : Type) : Type := {
  df_index : list Z;
  df_columns : list (string * list (option F))
}.

(** The keyword arguments of [generate_jedi_catalog] (lines 30-35);
    [output_path] only names files and is left out. *)
Record Config : Type := {
  threshold_time_prior_flare_minutes : Z;
  dimming_window_relative_to_flare_minutes_left : Z;
  dimming_window_relative_to_flare_minutes_right : Z;
  threshold_minimum_dimming_window_minutes : Z;
  verbose : bool
}.

Definition default_config (v : bool) : Config :=
  {| threshold_time_prior_flare_minutes := 240;
     dimming_window_relative_to_flare_minutes_left := 0;
     dimming_window_relative_to_flare_minutes_right := 240;
     threshold_minimum_dimming_window_minutes := 120;
     verbose := v |}.

(** [m * u.minute], in seconds. *)
Definition minutes (m : Z) : Z := (60 * m)%Z.

(** A time as the script holds it between lines 233 and 260: an astropy
    [Time], or the [.iso] text of one. *)
Inductive time_value : Type :=
| AstropyTime (t : Z)
| IsoText (t : Z).

(** The instant a time value denotes. *)
Definition instant (v : time_value) : Z :=
  match v with AstropyTime t | IsoText t => t end.

(** What the run does besides writing the catalog: the logger's lines and the
    calls of the numeric routines, in the order they happen. *)
Inductive event (F : Type) : Type :=
| LoggerInfo (message : string)
| DeterminePreflareIrradiance (column : string) (lc : LightCurve F) (flare_start : Z)
| LightCurvePeakMatchSubtract (pair : string * string)
    (subtract_from subtract_with : LightCurve F) (peak : Z)
| AutomaticFit (column : string) (lc : LightCurve F)
| DetermineDimmingDepth (column : string) (lc : LightCurve F)
| DetermineDimmingSlope (column : string) (lc : LightCurve F)
    (earliest_allowed_time latest_allowed_time : cell F)
| DetermineDimmingDuration (column : string) (lc : LightCurve F)
    (earliest_allowed_time : cell F).
Arguments LoggerInfo {F} message.

(** A line of the CSV file.  A data line is kept as the catalog row it
    serialises, column by column. *)
Inductive csv_line (F : Type) : Type :=
| Header (columns : list string)
| Row (cells : list (string * cell F)).
Arguments Header {F} columns.
Arguments Row {F} cells.

Definition is_data_line {F} (l : csv_line F) : bool :=
  match l with Row _ => true | Header _ => false end.

(** The locals of [generate_jedi_catalog] that live across iterations of the
    flare loop, the file on disk and the trace.  A local that has not been
    assigned yet is [None] in [preflare_window_start] and
    [preflare_window_end]; [preflare_irradiance] is assigned [None] (Python's)
    at line 183 and a list afterwards. *)
Record State (F : Type) : Type := {
  preflare_irradiance : option (list (option F));
  preflare_window_start : option Z;
  preflare_window_end : option Z;
  jedi_row : list (string * cell F);
  csv_file : list (csv_line F);
  trace : list (event F)
}.

(** ** The schema of the catalog row (lines 128-169) *)

Definition flare_columns : list string :=
  ["GOES Flare Start Time"; "GOES Flare Peak Time"; "GOES Flare Class";
   "Pre-Flare Start Time"; "Pre-Flare End Time"; "Flare Interrupt"].

Definition line_suffixes : list string :=
  [" Pre-Flare Irradiance [W/m2]"; " Slope Start Time"; " Slope End Time";
   " Slope Min [%/s]"; " Slope Max [%/s]"; " Slope Mean [%/s]";
   " Slope Uncertainty [%/s]"; " Depth Time"; " Depth [%]";
   " Depth Uncertainty [%]"; " Duration Start Time"; " Duration End Time";
   " Duration [s]"; " Fitting Gamma"; " Fitting Score"].

Definition pair_suffixes : list string :=
  [" Slope Start Time"; " Slope End Time"; " Slope Min [%/s]";
   " Slope Max [%/s]"; " Slope Mean [%/s]"; " Slope Uncertainty [%/s]";
   " Depth Time"; " Depth [%]"; " Depth Uncertainty [%]";
   " Duration Start Time"; " Duration End Time"; " Duration [s]";
   " Correction Time Shift [s]"; " Correction Scale Factor";
   " Fitting Gamma"; " Fitting Score"].

(** [index + suffix] for every suffix in turn. *)
Definition suffixed (index suffixes : list string) : list string :=
  flat_map (fun suffix => map (fun label => (label ++ suffix)%string) index) suffixes.

Definition ion_permutations (columns : list string) : list string :=
  map by_label (permutations2 columns).

Definition jedi_columns (columns : list string) : list string :=
  flare_columns ++ suffixed columns line_suffixes
                ++ suffixed (ion_permutations columns) pair_suffixes.

Definition jedi_row_definition {F} (columns : list string)
  : list (string * cell F) :=
  map (fun label => (label, NaN)) (jedi_columns columns).

(** ** Slicing and columns of an irradiance table *)

Section Frames.
Context {F : Type} `{FloatOps F}.

Fixpoint select {A} (mask : list bool) (l : list A) : list A :=
  match mask, l with
  | true :: mask', x :: l' => x :: select mask' l'
  | false :: mask', _ :: l' => select mask' l'
  | _, _ => []
  end.

(** [df[left:right]] on a time index: both ends are included. *)
Definition loc_slice (left right : Z) (df : DataFrame F) : DataFrame F :=
  let mask := map (fun t => (left <=? t)%Z && (t <=? right)%Z) (df_index df) in
  {| df_index := select mask (df_index df);
     df_columns := map (fun kv => (fst kv, select mask (snd kv))) (df_columns df) |}.

(** [pd.DataFrame(df[column])] with its column renamed ['irradiance']. *)
Definition light_curve (df : DataFrame F) (column : string)
  : result (LightCurve F) :=
  match lookup column (df_columns df) with
  | Some values => Ok {| lc_index := df_index df; irradiance := values |}
  | None => Raise (KeyError column)
  end.

(** [df[column] = values] *)
Definition set_column (df : DataFrame F) (column : string)
  (values : list (option F)) : DataFrame F :=
  {| df_index := df_index df;
     df_columns := assign column values (df_columns df) |}.

(** [(df - baseline) / baseline * 100.0] with [baseline] a list: pandas lines
    the list up with the columns and refuses a list of another length. *)
Definition to_percent (df : DataFrame F) (baseline : list (option F))
  : result (DataFrame F) :=
  if Nat.eqb (List.length baseline) (List.length (df_columns df)) then
    Ok {| df_index := df_index df;
          df_columns :=
            map (fun cb => (fst (fst cb),
                            map (fun v => percent_entry v (snd cb)) (snd (fst cb))))
                (combine (df_columns df) baseline) |}
  else Raise ValueError.
End Frames.

(** ** The pipeline *)

Section Pipeline.
Context {F : Type} `{FloatOps F}.

(** The numeric routines the script imports (lines 19-24).  Each takes the
    light curve and the instants the script passes; [verbose] is passed on
    where the script passes it on. *)
Variable determine_preflare_irradiance :
  LightCurve F -> Z -> bool -> option F.
Variable light_curve_peak_match_subtract :
  LightCurve F -> LightCurve F -> Z -> bool -> list (option F) * cell F * cell F.
Variable automatic_fit_coronal_dimming_light_curve :
  LightCurve F -> list (option F) * cell F * cell F.
Variable determine_dimming_depth :
  LightCurve F -> bool -> cell F * cell F.
Variable determine_dimming_slope :
  LightCurve F -> cell F -> cell F -> bool -> cell F * cell F * cell F.
Variable determine_dimming_duration :
  LightCurve F -> cell F -> bool -> cell F * cell F * cell F.

Variable cfg : Config.
Variable eve_lines : DataFrame F.
Variable goes_flare_events : list Flare.

(** *** State and exceptions *)

Definition M (A : Type) : Type := State F -> result A * State F.

Definition ret {A} (a : A) : M A := fun s => (Ok a, s).

Definition bind {A B} (c : M A) (k : A -> M B) : M B :=
  fun s =>
    match c s with
    | (Ok a, s') => k a s'
    | (Raise e, s') => (Raise e, s')
    end.

Definition raise {A} (e : exn) : M A := fun s => (Raise e, s).

Definition lift {A} (r : result A) : M A := fun s => (r, s).

Notation "x <- c ;; k" := (bind c (fun x => k))
  (at level 61, c at next level, right associativity).
Notation "c ;; k" := (bind c (fun _ => k))
  (at level 61, right associativity).

Definition when (b : bool) (c : M unit) : M unit :=
  if b then c else ret tt.

Fixpoint for_each {A} (l : list A) (body : A -> M unit) : M unit :=
  match l with
  | [] => ret tt
  | x :: rest => body x ;; for_each rest body
  end.

(** A loop that rebinds one local on every turn. *)
Fixpoint for_each_with {A B} (l : list A) (b : B) (body : B -> A -> M B) : M B :=
  match l with
  | [] => ret b
  | x :: rest => b' <- body b x ;; for_each_with rest b' body
  end.

Definition set_preflare_irradiance (v : option (list (option F))) : M unit :=
  fun s => (Ok tt,
    {| preflare_irradiance := v;
       preflare_window_start := preflare_window_start s;
       preflare_window_end := preflare_window_end s;
       jedi_row := jedi_row s;
       csv_file := csv_file s;
       trace := trace s |}).

Definition set_preflare_window_start (t : Z) : M unit :=
  fun s => (Ok tt,
    {| preflare_irradiance := preflare_irradiance s;
       preflare_window_start := Some t;
       preflare_window_end := preflare_window_end s;
       jedi_row := jedi_row s;
       csv_file := csv_file s;
       trace := trace s |}).

Definition set_preflare_window_end (t : Z) : M unit :=
  fun s => (Ok tt,
    {| preflare_irradiance := preflare_irradiance s;
       preflare_window_start := preflare_window_start s;
       preflare_window_end := Some t;
       jedi_row := jedi_row s;
       csv_file := csv_file s;
       trace := trace s |}).

Definition set_jedi_row (row : list (string * cell F)) : M unit :=
  fun s => (Ok tt,
    {| preflare_irradiance := preflare_irradiance s;
       preflare_window_start := preflare_window_start s;
       preflare_window_end := preflare_window_end s;
       jedi_row := row;
       csv_file := csv_file s;
       trace := trace s |}).

Definition set_csv_file (lines : list (csv_line F)) : M unit :=
  fun s => (Ok tt,
    {| preflare_irradiance := preflare_irradiance s;
       preflare_window_start := preflare_window_start s;
       preflare_window_end := preflare_window_end s;
       jedi_row := jedi_row s;
       csv_file := lines;
       trace := trace s |}).

Definition emit (e : event F) : M unit :=
  fun s => (Ok tt,
    {| preflare_irradiance := preflare_irradiance s;
       preflare_window_start := preflare_window_start s;
       preflare_window_end := preflare_window_end s;
       jedi_row := jedi_row s;
       csv_file := csv_file s;
       trace := trace s ++ [e] |}).

Definition read {A} (field : State F -> A) : M A := fun s => (Ok (field s), s).

(** Reading a local that was never assigned raises. *)
Definition read_local {A} (name : string) (field : State F -> option A) : M A :=
  fun s =>
    match field s with
    | Some v => (Ok v, s)
    | None => (Raise (UnboundLocalError name), s)
    end.

(** [jedi_row[label] = value] *)
Definition set_cell (label : string) (value : cell F) : M unit :=
  row <- read (@jedi_row F) ;;
  set_jedi_row (assign label value row).

(** [jedi_row.to_csv(csv_filename, header=False, mode='a')] *)
Definition to_csv_append : M unit :=
  row <- read (@jedi_row F) ;;
  lines <- read (@csv_file F) ;;
  set_csv_file (lines ++ [Row row]).

(** [logger.info(message)].  [logger] is a local assigned at line 73 under
    [if verbose:] and nowhere else, so it is bound exactly when [verbose]
    is set. *)
Definition logger_info (message : string) : M unit :=
  if verbose cfg then emit (LoggerInfo message)
  else raise (UnboundLocalError "logger").

(** [goes_flare_events[...][i]] *)
Definition flare_at (i : nat) : M Flare :=
  match nth_error goes_flare_events i with
  | Some flare => ret flare
  | None => raise IndexError
  end.

(** *** Pre-flare irradiance (lines 202-227) *)

Definition preflare_column (df : DataFrame F) (flare_start : Z)
  (so_far : list (option F)) (column : string) : M (list (option F)) :=
  eve_line_preflare_time <- lift (light_curve df column) ;;
  emit (DeterminePreflareIrradiance column eve_line_preflare_time flare_start) ;;
  let appended :=
    so_far ++ [determine_preflare_irradiance eve_line_preflare_time flare_start
                 (verbose cfg)] in
  set_preflare_irradiance (Some appended) ;;
  ret appended.

Definition recompute_preflare_irradiance (flare : Flare) : M unit :=
  let start := (peak_time flare - minutes (threshold_time_prior_flare_minutes cfg))%Z in
  let stop := peak_time flare in
  set_preflare_window_start start ;;
  set_preflare_window_end stop ;;
  let eve_lines_preflare_time := loc_slice start stop eve_lines in
  set_preflare_irradiance (Some []) ;;
  for_each_with (labels (df_columns eve_lines_preflare_time)) []
                (preflare_column eve_lines_preflare_time (start_time flare)) ;;
  ret tt.

(** The test of line 204, on seconds. *)
Definition independent_of_last_flare (flare previous : Flare) : bool :=
  (minutes (threshold_time_prior_flare_minutes cfg)
     <? peak_time flare - peak_time previous)%Z.

Definition resolve_preflare_irradiance (flare previous : Flare) : M unit :=
  if independent_of_last_flare flare previous then
    recompute_preflare_irradiance flare
  else
    logger_info "This flare at {0} will use the pre-flare irradiance from flare at {1}.".

(** [jedi_row[preflare_irradiance_cols] = preflare_irradiance] (lines
    226-227): a list gives each column its own entry, [None] goes to every
    column. *)
Definition store_preflare_irradiance : M unit :=
  row <- read (@jedi_row F) ;;
  let preflare_irradiance_cols :=
    filter (contains "Pre-Flare Irradiance") (labels row) in
  baseline <- read (@preflare_irradiance F) ;;
  match baseline with
  | None =>
      for_each preflare_irradiance_cols (fun col => set_cell col PyNone)
  | Some l =>
      if Nat.eqb (List.length l) (List.length preflare_irradiance_cols) then
        for_each (combine preflare_irradiance_cols l)
                 (fun cv => set_cell (fst cv) (cell_of_float (snd cv)))
      else raise ValueError
  end.

(** *** Dimming window (lines 232-248) *)

(** Line 233, a [Time]. *)
Definition bracket_time_left (flare : Flare) : Z :=
  (peak_time flare - minutes (dimming_window_relative_to_flare_minutes_left cfg))%Z.

(** Line 234, the [.iso] text of the next flare's peak. *)
Definition next_flare_time (next : Flare) : time_value :=
  IsoText (peak_time next).

(** Line 235, a [Time]. *)
Definition user_choice_time (flare : Flare) : Z :=
  (peak_time flare + minutes (dimming_window_relative_to_flare_minutes_right cfg))%Z.

(** [min(next_flare_time, user_choice_time)] (line 236): the first argument
    unless the second is smaller, and with the Python type of the one it
    returns. *)
Definition bracket_time_right (flare next : Flare) : time_value :=
  if (user_choice_time flare <? peak_time next)%Z
  then AstropyTime (user_choice_time flare)
  else next_flare_time next.

(** [bracket_time_right == next_flare_time] (line 239). *)
Definition flare_interrupt (flare next : Flare) : bool :=
  (instant (bracket_time_right flare next) =? instant (next_flare_time next))%Z.

(** The test of line 248, on seconds.  [bracket_time_right - bracket_time_left]
    subtracts a [Time]: from a [Time] that is a duration, from a text it
    raises. *)
Definition window_too_short (flare next : Flare) : result bool :=
  match bracket_time_right flare next with
  | AstropyTime right_time =>
      Ok ((right_time - bracket_time_left flare
             <? minutes (threshold_minimum_dimming_window_minutes cfg))%Z)
  | IsoText _ => Raise TypeError
  end.

(** *** Percent units (lines 265-269)

    [eve_lines_event = (eve_lines_event - preflare_irradiance) /
    preflare_irradiance * 100.0]: a new table bound to the same name. *)

Definition convert_to_percent (eve_lines_event : DataFrame F) : M (DataFrame F) :=
  baseline <- read (@preflare_irradiance F) ;;
  match baseline with
  | Some l => lift (to_percent eve_lines_event l)
  | None => raise TypeError
  end.

(** *** Flare removal (lines 271-295) *)

Definition correct_pair (peak : Z) (df : DataFrame F) (pair : string * string)
  : M (DataFrame F) :=
  light_curve_to_subtract_from_df <- lift (light_curve df (fst pair)) ;;
  light_curve_to_subtract_with_df <- lift (light_curve df (snd pair)) ;;
  if all_null (irradiance light_curve_to_subtract_from_df)
     || all_null (irradiance light_curve_to_subtract_with_df)
  then
    when (verbose cfg)
      (logger_info "Event {0} {1} correction skipped because all irradiances are NaN.") ;;
    ret df
  else
    let out := light_curve_peak_match_subtract light_curve_to_subtract_from_df
                 light_curve_to_subtract_with_df peak (verbose cfg) in
    emit (LightCurvePeakMatchSubtract pair light_curve_to_subtract_from_df
            light_curve_to_subtract_with_df peak) ;;
    set_cell (by_label pair ++ " Correction Time Shift [s]") (snd (fst out)) ;;
    set_cell (by_label pair ++ " Correction Scale Factor") (snd out) ;;
    when (verbose cfg)
      (logger_info "Event {0} flare removal correction complate") ;;
    ret (set_column df (by_label pair) (fst (fst out))).

(** [ion_tuples] is built once from the columns of [eve_lines] (line 151). *)
Definition ion_tuples : list (string * string) :=
  permutations2 (labels (df_columns eve_lines)).

Definition flare_removal (peak : Z) (df : DataFrame F) : M (DataFrame F) :=
  for_each_with ion_tuples df (correct_pair peak).

(** *** Fitting (lines 302-326) *)

Definition fit_column (df : DataFrame F) (column : string) : M (DataFrame F) :=
  eve_line_event <- lift (light_curve df column) ;;
  if all_null (irradiance eve_line_event) then
    when (verbose cfg)
      (logger_info "Event {0} {1} fitting skipped because all irradiances are NaN.") ;;
    ret df
  else
    let out := automatic_fit_coronal_dimming_light_curve eve_line_event in
    emit (AutomaticFit column eve_line_event) ;;
    set_cell (column ++ " Fitting Gamma") (snd (fst out)) ;;
    set_cell (column ++ " Fitting Score") (snd out) ;;
    when (verbose cfg) (logger_info "Event {0} light curves fitted.") ;;
    ret (set_column df column (fst (fst out))).

Definition fit_light_curves (df : DataFrame F) : M (DataFrame F) :=
  for_each_with (labels (df_columns df)) df fit_column.

(** *** Parameterization (lines 328-440) *)

Definition parameterize_column (peak : Z) (df : DataFrame F) (column : string)
  : M unit :=
  eve_line_event <- lift (light_curve df column) ;;
  if all_null (irradiance eve_line_event) then
    when (verbose cfg)
      (logger_info "Event {0} {1} parameterization skipped because all irradiances are NaN.")
  else
    (* Determine dimming depth (if any) *)
    let depth := determine_dimming_depth eve_line_event (verbose cfg) in
    let depth_percent := fst depth in
    let depth_time := snd depth in
    emit (DetermineDimmingDepth column eve_line_event) ;;
    set_cell (column ++ " Depth [%]") depth_percent ;;
    set_cell (column ++ " Depth Time") depth_time ;;
    (* Determine dimming slope (if any) *)
    let slope_start_time : cell F := Instant peak in
    let slope_end_time := depth_time in
    let slope := determine_dimming_slope eve_line_event slope_start_time
                   slope_end_time (verbose cfg) in
    emit (DetermineDimmingSlope column eve_line_event slope_start_time slope_end_time) ;;
    set_cell (column ++ " Slope Min [%/s]") (fst (fst slope)) ;;
    set_cell (column ++ " Slope Max [%/s]") (snd (fst slope)) ;;
    set_cell (column ++ " Slope Mean [%/s]") (snd slope) ;;
    set_cell (column ++ " Slope Start Time") slope_start_time ;;
    set_cell (column ++ " Slope End Time") slope_end_time ;;
    (* Determine dimming duration (if any) *)
    let duration := determine_dimming_duration eve_line_event slope_start_time
                      (verbose cfg) in
    emit (DetermineDimmingDuration column eve_line_event slope_start_time) ;;
    set_cell (column ++ " Duration [s]") (fst (fst duration)) ;;
    set_cell (column ++ " Duration Start Time") (snd (fst duration)) ;;
    set_cell (column ++ " Duration End Time") (snd duration) ;;
    when (verbose cfg) (logger_info "Event {0} parameterizations complete.") ;;
    when (verbose cfg) (logger_info "Summary plot saved to %s").

Definition parameterize (peak : Z) (df : DataFrame F) : M unit :=
  for_each (labels (df_columns df)) (parameterize_column peak df).

(** *** One turn of the flare loop (lines 186-447) *)

Definition process_flare (flare_index : nat) : M unit :=
  (* Skip event 0 to avoid problems with referring to earlier indices *)
  if Nat.eqb flare_index 0 then ret tt
  else
    flare <- flare_at flare_index ;;
    set_cell "GOES Flare Start Time" (Instant (start_time flare)) ;;
    set_cell "GOES Flare Peak Time" (Instant (peak_time flare)) ;;
    set_cell "GOES Flare Class" (Text (class flare)) ;;
    when (verbose cfg)
      (logger_info "Event {0} GOES flare details stored to JEDI row.") ;;
    (* Determine pre-flare irradiance *)
    previous <- flare_at (flare_index - 1) ;;
    resolve_preflare_irradiance flare previous ;;
    window_start <- read_local "preflare_window_start" (@preflare_window_start F) ;;
    set_cell "Pre-Flare Start Time" (Instant window_start) ;;
    window_end <- read_local "preflare_window_end" (@preflare_window_end F) ;;
    set_cell "Pre-Flare End Time" (Instant window_end) ;;
    store_preflare_irradiance ;;
    when (verbose cfg)
      (logger_info "Event {0} pre-flare determination complete.") ;;
    (* Clip EVE data to dimming window *)
    next <- flare_at (flare_index + 1) ;;
    when (flare_interrupt flare next && verbose cfg)
      (logger_info "Flare interrupt for event at {0} by flare at {1}") ;;
    set_cell "Flare Interrupt" (Flag (flare_interrupt flare next)) ;;
    (* Skip event if the dimming window is too short *)
    too_short <- lift (window_too_short flare next) ;;
    if too_short then
      to_csv_append ;;
      when (verbose cfg)
        (logger_info "The dimming window duration of {0} minutes is shorter than the minimum threshold of {1} minutes. Skipping this event ({2})")
    else
      (* [bracket_time_right] is a [Time] here, line 248 has returned *)
      let eve_lines_event :=
        loc_slice (bracket_time_left flare)
                  (instant (bracket_time_right flare next)) eve_lines in
      when (verbose cfg)
        (logger_info "Event {0} EVE data clipped to dimming window.") ;;
      (* Convert irradiance units to percent *)
      eve_lines_event <- convert_to_percent eve_lines_event ;;
      when (verbose cfg)
        (logger_info "Event {0} irradiance converted from absolute to percent units.") ;;
      eve_lines_event <- flare_removal (peak_time flare) eve_lines_event ;;
      eve_lines_event <- fit_light_curves eve_lines_event ;;
      parameterize (peak_time flare) eve_lines_event ;;
      (* Write to the JEDI catalog on disk *)
      to_csv_append ;;
      when (verbose cfg)
        (logger_info "Event {0} JEDI row written to {1}.").

(** *** The run *)

(** The state at line 185, before the flare loop: the log of the loading
    steps, the row definition, the file holding the header and the row as
    defined (all NaN), and the hold-over irradiance set to [None]. *)
Definition setup : M unit :=
  when (verbose cfg) (logger_info "Starting JEDI processing pipeline.") ;;
  when (verbose cfg) (logger_info "Loaded EVE data") ;;
  when (verbose cfg) (logger_info "Loaded GOES flare events.") ;;
  let row := jedi_row_definition (labels (df_columns eve_lines)) in
  set_jedi_row row ;;
  (* jedi_row.to_csv(csv_filename, header=True, mode='w') *)
  set_csv_file [Header (labels row); Row row] ;;
  when (verbose cfg) (logger_info "Created JEDI row definition.") ;;
  set_preflare_irradiance None.

Definition num_flares : nat := List.length goes_flare_events.

(** The first [n] turns of [for flare_index in range(num_flares)]. *)
Definition flare_loop (n : nat) : M unit :=
  for_each (seq 0 n) process_flare.

Definition blank : State F :=
  {| preflare_irradiance := None;
     preflare_window_start := None;
     preflare_window_end := None;
     jedi_row := [];
     csv_file := [];
     trace := [] |}.

Definition generate_jedi_catalog : result unit * State F :=
  (setup ;; flare_loop num_flares) blank.

(** The run cut after [n] turns of the loop. *)
Definition run_turns (n : nat) : result unit * State F :=
  (setup ;; flare_loop n) blank.
End Pipeline.

(** ** A small instance to run the pipeline on

    Exact rational arithmetic stands for the floats; a zero divisor gives NaN.
    The numeric routines are the simplest ones that return a value. *)

Module Toy.
Import QArith.

#[export] Instance QFloat : FloatOps Q := {
  fsub x y := Some (Qred (x - y));
  fdiv x y := if Qeq_bool y 0 then None else Some (Qred (x / y));
  fmul x y := Some (Qred (x * y));
  f100 := 100
}.

(** A whole number as a sample. *)
Definition q (n : Z) : Q := inject_Z n.

Definition preflare (lc : LightCurve Q) (flare_start : Z) (v : bool) : option Q :=
  hd None (irradiance lc).

Definition peak_match_subtract (a b : LightCurve Q) (peak : Z) (v : bool)
  : list (option Q) * cell Q * cell Q :=
  (irradiance a, Num 0, Num 1).

Definition fit (lc : LightCurve Q) : list (option Q) * cell Q * cell Q :=
  (irradiance lc, Num 2, Num 3).

Definition depth (lc : LightCurve Q) (v : bool) : cell Q * cell Q :=
  (Num 5, Instant (hd 0%Z (lc_index lc))).

Definition slope (lc : LightCurve Q) (earliest latest : cell Q) (v : bool)
  : cell Q * cell Q * cell Q :=
  (Num 6, Num 7, Num 8).

Definition duration (lc : LightCurve Q) (earliest : cell Q) (v : bool)
  : cell Q * cell Q * cell Q :=
  (Num 9, earliest, earliest).

Definition run (cfg : Config) (eve_lines : DataFrame Q) (flares : list Flare)
  : result unit * State Q :=
  generate_jedi_catalog preflare peak_match_subtract fit depth slope duration
    cfg eve_lines flares.

Definition flare (peak_minute : Z) : Flare :=
  {| start_time := minutes peak_minute - 60;
     peak_time := minutes peak_minute;
     class := "C1.0" |}.

Definition turns (cfg : Config) (eve_lines : DataFrame Q) (flares : list Flare)
  (n : nat) : result unit * State Q :=
  run_turns preflare peak_match_subtract fit depth slope duration
    cfg eve_lines flares n.

Definition quiet : Config := default_config false.
Definition chatty : Config := default_config true.

(** The defaults with a one-hour window, shorter than the two-hour minimum. *)
Definition short_window : Config :=
  {| threshold_time_prior_flare_minutes := 240;
     dimming_window_relative_to_flare_minutes_left := 0;
     dimming_window_relative_to_flare_minutes_right := 60;
     threshold_minimum_dimming_window_minutes := 120;
     verbose := false |}.

(** A one-hour window over a half-hour minimum: with flares more than an
    hour apart no window is cut by the next flare and none is too short. *)
Definition narrow (v : bool) : Config :=
  {| threshold_time_prior_flare_minutes := 240;
     dimming_window_relative_to_flare_minutes_left := 0;
     dimming_window_relative_to_flare_minutes_right := 60;
     threshold_minimum_dimming_window_minutes := 30;
     verbose := v |}.

(** The defaults with the left edge asked half an hour before the peak. *)
Definition early_left : Config :=
  {| threshold_time_prior_flare_minutes := 240;
     dimming_window_relative_to_flare_minutes_left := -30;
     dimming_window_relative_to_flare_minutes_right := 240;
     threshold_minimum_dimming_window_minutes := 120;
     verbose := false |}.

Definition hours : list Z := map (fun h => (3600 * Z.of_nat h)%Z) (seq 0 25).

(** One emission line sampled every hour for a day, constant at 2. *)
Definition one_line : DataFrame Q :=
  {| df_index := hours;
     df_columns := [("17.1", repeat (Some 2) 25)] |}.

(** Three lines, the last entirely missing. *)
Definition three_lines : DataFrame Q :=
  {| df_index := hours;
     df_columns := [("17.1", repeat (Some 2) 25);
                    ("19.5", repeat (Some 3) 25);
                    ("30.4", repeat None 25)] |}.

(** A state between two turns whose hold-over irradiance is 2 for the one
    line. *)
Definition holding_two : State Q :=
  {| preflare_irradiance := Some [Some 2];
     preflare_window_start := Some 3600%Z;
     preflare_window_end := Some 18000%Z;
     jedi_row := jedi_row_definition ["17.1"];
     csv_file := [];
     trace := [] |}.

(** Flare lists, by the minute of each peak. *)
Definition two_flares : list Flare := [flare 0; flare 300].
Definition near_start : list Flare := [flare 0; flare 100; flare 1000].
Definition lone_then_late : list Flare := [flare 0; flare 300; flare 1000].
Definition close_pair : list Flare := [flare 0; flare 300; flare 400; flare 1000].
(** Flare 1 is followed an hour later, within its window and under the
    minimum window of two hours. *)
Definition cut_short : list Flare := [flare 0; flare 300; flare 360; flare 1000].
End Toy.

(** * Vocabulary of the statements *)

Section Vocabulary.
Context {F : Type}.

(** [preserves field c]: running [c] leaves [field] of the state as it was,
    whether [c] returns or raises. *)
Definition preserves {A X} (field : State F -> X) (c : @M F A) : Prop :=
  forall s, field (snd (c s)) = field s.

(** [c] raises from every state. *)
Definition fails {A} (c : @M F A) : Prop :=
  forall s, is_ok (fst (c s)) = false.

(** What a turn of the loop hands to the next one besides the row and the
    trace: the hold-over irradiance, its window, and the file. *)
Definition carried (s : State F) :=
  (preflare_irradiance s, preflare_window_start s, preflare_window_end s,
   csv_file s).

(** [jedi_row[target]] in a state. *)
Definition cell_at (target : string) (s : State F) : option (cell F) :=
  lookup target (jedi_row s).

(** [c] adds one line to the file, the row as [c] leaves it, when it returns,
    and none when it raises. *)
Definition appended_on_success (c : @M F unit) : Prop :=
  forall s,
    csv_file (snd (c s)) =
    csv_file s ++ (if is_ok (fst (c s)) then [Row (jedi_row (snd (c s)))] else []).

Definition is_call (e : event F) : bool :=
  match e with LoggerInfo _ => false | _ => true end.

(** The trace without the logger's lines. *)
Definition calls (t : list (event F)) : list (event F) := filter is_call t.

(** [df[label]] as the script sees it when the column exists. *)
Definition column_values (df : DataFrame F) (label : string) : list (option F) :=
  match lookup label (df_columns df) with
  | Some values => values
  | None => []
  end.

Definition curve (df : DataFrame F) (label : string) : LightCurve F :=
  {| lc_index := df_index df; irradiance := column_values df label |}.

(** The test of line 278 on the table [df]. *)
Definition pair_skipped (df : DataFrame F) (pair : string * string) : bool :=
  all_null (column_values df (fst pair)) || all_null (column_values df (snd pair)).

Definition correction_call (df : DataFrame F) (peak : Z) (pair : string * string)
  : event F :=
  LightCurvePeakMatchSubtract pair (curve df (fst pair)) (curve df (snd pair)) peak.

Definition correction_result
  (light_curve_peak_match_subtract :
     LightCurve F -> LightCurve F -> Z -> bool -> list (option F) * cell F * cell F)
  (cfg : Config) (df : DataFrame F) (peak : Z) (pair : string * string)
  : list (option F) * cell F * cell F :=
  light_curve_peak_match_subtract (curve df (fst pair)) (curve df (snd pair))
    peak (verbose cfg).

(** Some cell of the row holds Python's [None]. *)
Definition holds_none (row : list (string * cell F)) : bool :=
  existsb (fun kv => match snd kv with PyNone => true | _ => false end) row.

(** From a state in [P], [c] either returns a value and a state in [Q] or
    raises an exception and leaves a state in [E]. *)
Definition triple {A} (P : State F -> Prop) (c : @M F A)
  (Q : A -> State F -> Prop) (E : exn -> State F -> Prop) : Prop :=
  forall s, P s ->
    match c s with
    | (Ok a, s') => Q a s'
    | (Raise e, s') => E e s'
    end.

(** [left <= t <= right], the test of a slice [df[left:right]]. *)
Definition in_window (left right t : Z) : bool :=
  (left <=? t)%Z && (t <=? right)%Z.

(** A data line with exactly the given columns, in their order. *)
Definition is_row_over (columns : list string) (l : csv_line F) : Prop :=
  exists r, l = Row r /\ labels r = columns.

(** The header first and once, then data lines over its columns. *)
Definition file_ok (columns : list string) (lines : list (csv_line F)) : Prop :=
  exists rows,
    lines = Header columns :: rows /\ Forall (is_row_over columns) rows.

End Vocabulary.

(** * Facts *)

(** ** Labelled columns *)

Section ColumnFacts.
Variable V : Type.
Implicit Types (cols : list (string * V)) (label : string) (v : V).

Lemma has_label_false_lookup label cols :
  has_label label cols = false -> lookup label cols = None.
Proof.
  unfold has_label, labels.
  induction cols as [|[k w] rest IH]; simpl; [reflexivity|].
  rewrite String.eqb_sym.
  destruct (String.eqb k label); simpl; [discriminate | exact IH].
Qed.

Lemma lookup_replace_label_same label v cols :
  has_label label cols = true ->
  lookup label (replace_label label v cols) = Some v.
Proof.
  unfold has_label, labels, replace_label.
  induction cols as [|[k w] rest IH]; simpl; [discriminate|].
  rewrite (String.eqb_sym label k).
  destruct (String.eqb k label) eqn:E; simpl; rewrite E; auto.
Qed.

Lemma lookup_replace_label_other label label' v cols :
  label <> label' ->
  lookup label (replace_label label' v cols) = lookup label cols.
Proof.
  intros Hne. unfold replace_label.
  induction cols as [|[k w] rest IH]; simpl; [reflexivity|].
  destruct (String.eqb k label') eqn:E; simpl.
  - apply String.eqb_eq in E. subst k.
    destruct (String.eqb_spec label' label) as [->|_]; [contradiction | exact IH].
  - rewrite IH. reflexivity.
Qed.

Lemma lookup_app_miss label cols cols' :
  lookup label cols = None -> lookup label (cols ++ cols') = lookup label cols'.
Proof.
  induction cols as [|[k w] rest IH]; simpl; [reflexivity|].
  destruct (String.eqb k label); [discriminate | exact IH].
Qed.

Lemma lookup_app_hit label cols cols' v :
  lookup label cols = Some v -> lookup label (cols ++ cols') = Some v.
Proof.
  induction cols as [|[k w] rest IH]; simpl; [discriminate|].
  destruct (String.eqb k label); [auto | exact IH].
Qed.

(** [frame[label] = v] then [frame[label]] gives [v]. *)
Lemma lookup_assign_same label v cols :
  lookup label (assign label v cols) = Some v.
Proof.
  unfold assign. destruct (has_label label cols) eqn:E.
  - apply lookup_replace_label_same, E.
  - rewrite lookup_app_miss by (apply has_label_false_lookup, E).
    simpl. rewrite String.eqb_refl. reflexivity.
Qed.

(** Assigning one label leaves the others as they were. *)
Lemma lookup_assign_other label label' v cols :
  label <> label' ->
  lookup label (assign label' v cols) = lookup label cols.
Proof.
  intros Hne. unfold assign. destruct (has_label label' cols).
  - apply lookup_replace_label_other, Hne.
  - destruct (lookup label cols) as [w|] eqn:E.
    + apply lookup_app_hit, E.
    + rewrite lookup_app_miss by exact E. simpl.
      destruct (String.eqb_spec label' label) as [->|_]; [contradiction | reflexivity].
Qed.

Lemma labels_replace_label label v cols :
  labels (replace_label label v cols) = labels cols.
Proof.
  unfold labels, replace_label. rewrite map_map. apply map_ext.
  intros [k w]; simpl. destruct (String.eqb k label); reflexivity.
Qed.

Lemma has_label_In label cols :
  has_label label cols = true <-> In label (labels cols).
Proof.
  unfold has_label. rewrite existsb_exists. split.
  - intros (x & Hin & Heq). apply String.eqb_eq in Heq. subst x. exact Hin.
  - intros Hin. exists label. split; [exact Hin | apply String.eqb_refl].
Qed.

Lemma In_labels_lookup label cols :
  In label (labels cols) -> exists v, lookup label cols = Some v.
Proof.
  induction cols as [|[k w] rest IH]; simpl; [contradiction|].
  intros [->|Hin].
  - rewrite String.eqb_refl. eauto.
  - destruct (String.eqb k label); eauto.
Qed.
End ColumnFacts.

(** ** The labels the script builds *)

Lemma length_append (a b : string) :
  String.length (a ++ b) = String.length a + String.length b.
Proof. induction a as [|c a IH]; simpl; [reflexivity | rewrite IH; reflexivity]. Qed.

(** A derived-pair label is longer than either of its lines. *)
Lemma by_label_fresh (pair : string * string) :
  by_label pair <> fst pair /\ by_label pair <> snd pair.
Proof.
  unfold by_label. split; intros E; apply (f_equal String.length) in E;
    rewrite !length_append in E; simpl in E; lia.
Qed.

Lemma append_inj_l (p a b : string) : (p ++ a = p ++ b -> a = b)%string.
Proof.
  induction p as [|c p IH]; simpl; [auto|]. intros E. injection E. exact IH.
Qed.

Lemma ends_with_append (label suffix : string) :
  ends_with suffix (label ++ suffix) = true.
Proof.
  induction label as [|c label IH]; cbn [append ends_with].
  - destruct suffix; cbn [ends_with]; rewrite String.eqb_refl; reflexivity.
  - rewrite IH. apply orb_true_r.
Qed.

(** A label that does not end in [suffix] is none of the columns
    [line + suffix]. *)
Lemma suffixed_neq (label suffix target : string) :
  ends_with suffix target = false -> (label ++ suffix)%string <> target.
Proof.
  intros Hends E. subst target. rewrite ends_with_append in Hends. discriminate.
Qed.

(** ** The monad *)

Section MonadFacts.
Context {F : Type}.

Lemma bind_run {A B} (c : @M F A) (k : A -> M B) s :
  bind c k s =
  match c s with
  | (Ok a, s') => k a s'
  | (Raise e, s') => (Raise e, s')
  end.
Proof. reflexivity. Qed.

Lemma bind_ok {A B} (c : @M F A) (k : A -> M B) s b s' :
  bind c k s = (Ok b, s') ->
  exists a s1, c s = (Ok a, s1) /\ k a s1 = (Ok b, s').
Proof.
  rewrite bind_run. destruct (c s) as [[a|e] s1]; [eauto | discriminate].
Qed.

Lemma for_each_app {A} (l1 l2 : list A) (body : A -> @M F unit) s :
  for_each (l1 ++ l2) body s = bind (for_each l1 body) (fun _ => for_each l2 body) s.
Proof.
  revert s. induction l1 as [|x l1 IH]; intros s; simpl.
  - reflexivity.
  - rewrite !bind_run. destruct (body x s) as [[[]|e] s1]; [apply IH | reflexivity].
Qed.

Lemma preserves_ret {A X} (field : State F -> X) (a : A) :
  preserves field (ret a).
Proof. intros s; reflexivity. Qed.

Lemma preserves_raise {A X} (field : State F -> X) e :
  preserves field (@raise F A e).
Proof. intros s; reflexivity. Qed.

Lemma preserves_lift {A X} (field : State F -> X) (r : result A) :
  preserves field (lift r).
Proof. intros s; reflexivity. Qed.

Lemma preserves_read {A X} (field : State F -> X) (g : State F -> A) :
  preserves field (read g).
Proof. intros s; reflexivity. Qed.

Lemma preserves_read_local {A X} (field : State F -> X) name (g : State F -> option A) :
  preserves field (read_local name g).
Proof. intros s; unfold read_local; destruct (g s); reflexivity. Qed.

Lemma preserves_bind {A B X} (field : State F -> X) (c : M A) (k : A -> M B) :
  preserves field c -> (forall a, preserves field (k a)) ->
  preserves field (bind c k).
Proof.
  intros Hc Hk s. rewrite bind_run. specialize (Hc s).
  destruct (c s) as [[a|e] s1]; simpl in *; [rewrite Hk | idtac]; exact Hc.
Qed.

Lemma preserves_when {X} (field : State F -> X) b (c : M unit) :
  preserves field c -> preserves field (when b c).
Proof. destruct b; simpl; [auto | intros _ s; reflexivity]. Qed.

Lemma preserves_for_each {A X} (field : State F -> X) (l : list A) body :
  (forall x, preserves field (body x)) -> preserves field (for_each l body).
Proof.
  intros Hb. induction l as [|x l IH]; simpl.
  - apply preserves_ret.
  - apply preserves_bind; auto.
Qed.

Lemma preserves_for_each_in {A X} (field : State F -> X) (l : list A) body :
  (forall x, In x l -> preserves field (body x)) ->
  preserves field (for_each l body).
Proof.
  induction l as [|x l IH]; intros Hb; simpl.
  - apply preserves_ret.
  - apply preserves_bind; [apply Hb; left; reflexivity|].
    intros _. apply IH. intros y Hy. apply Hb. right. exact Hy.
Qed.

Lemma preserves_for_each_with {A B X} (field : State F -> X) (l : list A)
  (b : B) body :
  (forall b x, preserves field (body b x)) ->
  preserves field (for_each_with l b body).
Proof.
  intros Hb. revert b. induction l as [|x l IH]; intros b; simpl.
  - apply preserves_ret.
  - apply preserves_bind; auto.
Qed.

(** When the flare exists, [goes_flare_events[...][i]] is that flare. *)
Lemma preserves_flare_at {A X} (field : State F -> X) flares i flare
  (k : Flare -> M A) :
  nth_error flares i = Some flare ->
  preserves field (k flare) ->
  preserves field (bind (flare_at flares i) k).
Proof.
  intros Hi Hk s. rewrite bind_run. unfold flare_at. rewrite Hi. apply Hk.
Qed.

Lemma preserves_flare_lookup {X} (field : State F -> X) flares i :
  preserves field (flare_at flares i).
Proof.
  intros s. unfold flare_at. destruct (nth_error flares i); reflexivity.
Qed.

(** The logger writes to the trace only. *)
Lemma preserves_logger_info {X} (field : State F -> X) cfg message :
  (forall s e, field
     {| preflare_irradiance := preflare_irradiance s;
        preflare_window_start := preflare_window_start s;
        preflare_window_end := preflare_window_end s;
        jedi_row := jedi_row s;
        csv_file := csv_file s;
        trace := trace s ++ [e] |} = field s) ->
  preserves field (logger_info cfg message).
Proof.
  intros Hf s. unfold logger_info. destruct (verbose cfg); simpl; auto.
Qed.
End MonadFacts.

Create HintDb frame.

(** Breaks a computation down along its binds, loops and branches.  A cell
    assignment is left to the hints; any other step is closed by the hints or
    by computation, or left as it is. *)
Ltac frame :=
  lazymatch goal with
  | |- preserves _ (set_cell _ _) => auto with frame
  | |- preserves _ (bind (flare_at _ _) _) =>
      first [ eapply preserves_flare_at; [eassumption | frame]
            | apply preserves_bind; [frame | intro; frame] ]
  | |- preserves _ (bind _ _) => apply preserves_bind; [frame | intro; frame]
  | |- preserves _ (flare_at _ _) => apply preserves_flare_lookup
  | |- preserves _ (ret _) => apply preserves_ret
  | |- preserves _ (raise _) => apply preserves_raise
  | |- preserves _ (lift _) => apply preserves_lift
  | |- preserves _ (read _) => apply preserves_read
  | |- preserves _ (read_local _ _) => apply preserves_read_local
  | |- preserves _ (when _ _) => apply preserves_when; frame
  | |- preserves _ (logger_info _ _) =>
      first [ apply preserves_logger_info; intros; reflexivity
            | solve [auto with frame] ]
  | |- preserves _ (for_each _ _) => apply preserves_for_each; intro; frame
  | |- preserves _ (for_each_with _ _ _) =>
      apply preserves_for_each_with; intros; frame
  | |- preserves _ (if ?b then _ else _) =>
      first [ match goal with Hb : b = _ |- _ => rewrite Hb end
            | destruct b ];
      frame
  | |- preserves _ (match ?x with Some _ => _ | None => _ end) =>
      destruct x; frame
  | |- _ =>
      first [ progress cbv beta zeta; frame
            | solve [auto with frame]
            | solve [intro; reflexivity]
            | idtac ]
  end.

(** ** The stages *)

Section PipelineFacts.
Context {F : Type} `{FloatOps F}.
Variable determine_preflare_irradiance :
  LightCurve F -> Z -> bool -> option F.
Variable light_curve_peak_match_subtract :
  LightCurve F -> LightCurve F -> Z -> bool -> list (option F) * cell F * cell F.
Variable automatic_fit_coronal_dimming_light_curve :
  LightCurve F -> list (option F) * cell F * cell F.
Variable determine_dimming_depth :
  LightCurve F -> bool -> cell F * cell F.
Variable determine_dimming_slope :
  LightCurve F -> cell F -> cell F -> bool -> cell F * cell F * cell F.
Variable determine_dimming_duration :
  LightCurve F -> cell F -> bool -> cell F * cell F * cell F.
Variable cfg : Config.
Variable eve_lines : DataFrame F.
Variable goes_flare_events : list Flare.
Implicit Types (df dfk : DataFrame F) (s sk : State F) (pair : string * string).

Local Abbreviation turn :=
  (process_flare determine_preflare_irradiance light_curve_peak_match_subtract
     automatic_fit_coronal_dimming_light_curve determine_dimming_depth
     determine_dimming_slope determine_dimming_duration
     cfg eve_lines goes_flare_events).
Local Abbreviation removal :=
  (flare_removal light_curve_peak_match_subtract cfg eve_lines).
Local Abbreviation fitting :=
  (fit_light_curves automatic_fit_coronal_dimming_light_curve cfg).
Local Abbreviation parameterization :=
  (parameterize determine_dimming_depth determine_dimming_slope
     determine_dimming_duration cfg).
Local Abbreviation correction_result :=
  (correction_result light_curve_peak_match_subtract cfg).
Local Abbreviation turns :=
  (run_turns determine_preflare_irradiance light_curve_peak_match_subtract
     automatic_fit_coronal_dimming_light_curve determine_dimming_depth
     determine_dimming_slope determine_dimming_duration
     cfg eve_lines goes_flare_events).

Lemma set_cell_carried label (v : cell F) : preserves carried (set_cell label v).
Proof. unfold set_cell. frame. Qed.

Lemma emit_carried (e : event F) : preserves carried (emit e).
Proof. frame. Qed.

Hint Resolve set_cell_carried emit_carried : frame.

Lemma store_preflare_irradiance_carried :
  preserves carried (@store_preflare_irradiance F).
Proof. unfold store_preflare_irradiance. frame. Qed.

Lemma convert_to_percent_carried df :
  preserves carried (convert_to_percent df).
Proof. unfold convert_to_percent. frame. Qed.

Lemma flare_removal_carried peak df : preserves carried (removal peak df).
Proof. unfold flare_removal, correct_pair. frame. Qed.

Lemma fit_light_curves_carried df : preserves carried (fitting df).
Proof. unfold fit_light_curves, fit_column. frame. Qed.

Lemma parameterize_carried peak df : preserves carried (parameterization peak df).
Proof. unfold parameterize, parameterize_column. frame. Qed.

Hint Resolve store_preflare_irradiance_carried convert_to_percent_carried
  flare_removal_carried fit_light_curves_carried parameterize_carried : frame.

Lemma carried_preflare_irradiance {A} (c : @M F A) :
  preserves carried c -> preserves (@preflare_irradiance F) c.
Proof. intros Hc s. specialize (Hc s). unfold carried in Hc. congruence. Qed.

Lemma carried_csv_file {A} (c : @M F A) :
  preserves carried c -> preserves (@csv_file F) c.
Proof. intros Hc s. specialize (Hc s). unfold carried in Hc. congruence. Qed.

Hint Resolve carried_preflare_irradiance carried_csv_file : frame.

(** *** The hold-over irradiance *)

(** The [else] branch of line 219 leaves the hold-over irradiance alone. *)
Lemma resolve_reuses flare previous :
  independent_of_last_flare cfg flare previous = false ->
  preserves (@preflare_irradiance F)
    (resolve_preflare_irradiance determine_preflare_irradiance cfg eve_lines
       flare previous).
Proof.
  intros Hgap. unfold resolve_preflare_irradiance. rewrite Hgap. frame.
Qed.

Lemma turn_reuses i flare previous :
  nth_error goes_flare_events i = Some flare ->
  nth_error goes_flare_events (i - 1) = Some previous ->
  independent_of_last_flare cfg flare previous = false ->
  preserves (@preflare_irradiance F) (turn i).
Proof.
  intros Hi Hprev Hgap. unfold process_flare, to_csv_append. frame.
  apply resolve_reuses, Hgap.
Qed.

(** One more turn of the loop: nothing happens once the run has raised. *)
Lemma run_turns_S n :
  turns (S n) =
  match turns n with
  | (Ok _, s) => turn n s
  | (Raise e, s) => (Raise e, s)
  end.
Proof.
  unfold run_turns, flare_loop. rewrite seq_S. simpl.
  rewrite !bind_run. destruct (setup cfg eve_lines blank) as [[[]|e] s0]; [|reflexivity].
  rewrite for_each_app, bind_run.
  destruct (for_each (seq 0 n) turn s0) as [[[]|e] s1]; [|reflexivity].
  simpl. rewrite bind_run. destruct (turn n s1) as [[[]|e] s2]; reflexivity.
Qed.

(** C3.  Take a flare [i >= 1] and the flare before it.  If the peaks are at
    most [threshold_time_prior_flare_minutes] apart, the hold-over pre-flare
    irradiance after the turn of flare [i] (the values its row and its percent
    conversion use) is the one left by the turn of flare [i - 1]; and the
    hold-over irradiance differs from one turn to the next only if the gap
    exceeds the threshold. *)
Theorem baseline_reused_within_threshold (i : nat) (flare previous : Flare) :
  1 <= i ->
  nth_error goes_flare_events i = Some flare ->
  nth_error goes_flare_events (i - 1) = Some previous ->
  ((peak_time flare - peak_time previous
      <= minutes (threshold_time_prior_flare_minutes cfg))%Z ->
   preflare_irradiance (snd (turns (S i))) = preflare_irradiance (snd (turns i)))
  /\
  (preflare_irradiance (snd (turns (S i))) <> preflare_irradiance (snd (turns i)) ->
   (minutes (threshold_time_prior_flare_minutes cfg)
      < peak_time flare - peak_time previous)%Z).
Proof.
  intros _ Hi Hprev.
  assert (Hreuse :
    independent_of_last_flare cfg flare previous = false ->
    preflare_irradiance (snd (turns (S i))) = preflare_irradiance (snd (turns i))).
  { intros Hgap. rewrite run_turns_S.
    destruct (turns i) as [[[]|e] s]; simpl; [|reflexivity].
    apply (turn_reuses _ Hi Hprev Hgap). }
  unfold independent_of_last_flare in Hreuse. split.
  - intros Hgap. apply Hreuse. apply Z.ltb_ge. exact Hgap.
  - intros Hchanged.
    destruct (Z.ltb_spec (minutes (threshold_time_prior_flare_minutes cfg))
                (peak_time flare - peak_time previous)) as [Hlt|Hge];
      [exact Hlt | exfalso; apply Hchanged, Hreuse; reflexivity].
Qed.

(** *** Rows on disk *)

Lemma resolve_csv_file flare previous :
  preserves (@csv_file F)
    (resolve_preflare_irradiance determine_preflare_irradiance cfg eve_lines
       flare previous).
Proof.
  unfold resolve_preflare_irradiance, recompute_preflare_irradiance,
    preflare_column. frame.
Qed.

Hint Resolve resolve_csv_file : frame.

Lemma appended_bind {A} (c : @M F A) (k : A -> @M F unit) :
  preserves (@csv_file F) c -> (forall a, appended_on_success (k a)) ->
  appended_on_success (bind c k).
Proof.
  intros Hc Hk s. rewrite bind_run. specialize (Hc s).
  destruct (c s) as [[a|e] s1]; simpl in *.
  - rewrite Hk, Hc. reflexivity.
  - rewrite Hc, app_nil_r. reflexivity.
Qed.

Lemma appended_write message :
  appended_on_success
    (bind (@to_csv_append F) (fun _ => when (verbose cfg) (logger_info cfg message))).
Proof.
  intros s. unfold logger_info. destruct (verbose cfg); reflexivity.
Qed.

Lemma turn_appends i : i <> 0 -> appended_on_success (turn i).
Proof.
  intros Hi. unfold process_flare.
  apply Nat.eqb_neq in Hi. rewrite Hi.
  repeat first
    [ apply appended_write
    | apply appended_bind; [solve [frame] | intro]
    | match goal with
      | |- appended_on_success (if ?b then _ else _) => destruct b
      end
    | progress cbv zeta ].
Qed.

(** *** Calls of the numeric routines *)

Lemma calls_app (t t' : list (event F)) : calls (t ++ t') = calls t ++ calls t'.
Proof. apply filter_app. Qed.

Lemma same_line_other_suffix (label a b : string) :
  a <> b -> (label ++ a)%string <> (label ++ b)%string.
Proof. intros Hne E. apply Hne, (append_inj_l _ _ _ E). Qed.

(** *** Percent units *)

Lemma nth_error_combine {A B} (l : list A) (l' : list B) n a b :
  nth_error l n = Some a -> nth_error l' n = Some b ->
  nth_error (combine l l') n = Some (a, b).
Proof.
  revert l' n. induction l as [|x l IH]; intros [|y l'] [|n]; simpl;
    try discriminate.
  - intros [= ->] [= ->]. reflexivity.
  - apply IH.
Qed.

Lemma map_fst_combine {A B} (l : list A) (l' : list B) :
  List.length l' = List.length l -> map fst (combine l l') = l.
Proof.
  revert l'. induction l as [|x l IH]; intros [|y l']; simpl;
    try discriminate; [reflexivity|].
  intros [= Hlen]. rewrite IH by exact Hlen. reflexivity.
Qed.

(** C9.  With one baseline value per column, the conversion returns a table
    over the same index and the same columns whose entry in column [j], row
    [r] is [(value - baseline j) / baseline j * 100] computed with NaN
    absorbing: a missing value or a missing baseline gives a missing entry.
    The step reads the state and leaves it as it was. *)
Theorem percent_conversion_elementwise (df : DataFrame F)
  (baseline : list (option F)) (s : State F) :
  preflare_irradiance s = Some baseline ->
  List.length baseline = List.length (df_columns df) ->
  exists out,
    convert_to_percent df s = (Ok out, s)
    /\ df_index out = df_index df
    /\ labels (df_columns out) = labels (df_columns df)
    /\ (forall j label values b,
          nth_error (df_columns df) j = Some (label, values) ->
          nth_error baseline j = Some b ->
          exists values',
            nth_error (df_columns out) j = Some (label, values')
            /\ List.length values' = List.length values
            /\ forall r v, nth_error values r = Some v ->
                 nth_error values' r = Some (percent_entry v b))
    /\ (forall b, percent_entry None b = None)
    /\ (forall v, percent_entry v None = None)
    /\ (forall x y,
          percent_entry (Some x) (Some y) =
          match fsub x y with
          | Some difference =>
              match fdiv difference y with
              | Some ratio => fmul ratio f100
              | None => None
              end
          | None => None
          end).
Proof.
  intros Hstate Hlen.
  unfold convert_to_percent, to_percent. rewrite bind_run. simpl.
  rewrite Hstate. unfold lift. apply Nat.eqb_eq in Hlen. rewrite Hlen.
  apply Nat.eqb_eq in Hlen.
  eexists. split; [reflexivity|]. simpl. split; [reflexivity|]. split.
  { unfold labels. rewrite map_map. simpl.
    rewrite <- (map_map fst fst), map_fst_combine by exact Hlen. reflexivity. }
  split.
  { intros j label values b Hcol Hb. eexists. split; [|split].
    - rewrite nth_error_map, (nth_error_combine _ _ _ Hcol Hb). reflexivity.
    - apply length_map.
    - intros r v Hv. simpl. rewrite nth_error_map, Hv. reflexivity. }
  split; [intros [b|]; reflexivity|].
  split; [intros [v|]; reflexivity|].
  intros x y. unfold percent_entry, lift2.
  destruct (fsub x y) as [d|]; [|reflexivity].
  destruct (fdiv d y); reflexivity.
Qed.

(** *** Flare removal *)

Lemma light_curve_present df label :
  In label (labels (df_columns df)) -> light_curve df label = Ok (curve df label).
Proof.
  intros Hin. apply In_labels_lookup in Hin as (values & Hv).
  unfold light_curve, curve, column_values. rewrite Hv. reflexivity.
Qed.

(** One turn of the loop of line 272, on a table that has both lines. *)
Lemma correct_pair_run peak df pair s :
  In (fst pair) (labels (df_columns df)) ->
  In (snd pair) (labels (df_columns df)) ->
  exists s',
    correct_pair light_curve_peak_match_subtract cfg peak df pair s
    = (Ok (if pair_skipped df pair then df
           else set_column df (by_label pair)
                  (fst (fst (correction_result df peak pair)))), s')
    /\ carried s' = carried s
    /\ jedi_row s'
       = (if pair_skipped df pair then jedi_row s
          else assign (by_label pair ++ " Correction Scale Factor")
                 (snd (correction_result df peak pair))
                 (assign (by_label pair ++ " Correction Time Shift [s]")
                    (snd (fst (correction_result df peak pair))) (jedi_row s)))
    /\ calls (trace s')
       = calls (trace s)
         ++ (if pair_skipped df pair then [] else [correction_call df peak pair]).
Proof.
  intros Hfrom Hwith. unfold correct_pair.
  rewrite (light_curve_present _ _ Hfrom), (light_curve_present _ _ Hwith).
  unfold pair_skipped, correction_result, correction_call, logger_info.
  unfold bind at 1 2. unfold lift. cbv beta iota.
  change (irradiance (curve df (fst pair))) with (column_values df (fst pair)).
  change (irradiance (curve df (snd pair))) with (column_values df (snd pair)).
  destruct (all_null (column_values df (fst pair))
            || all_null (column_values df (snd pair)));
    destruct (verbose cfg); cbn -[assign append calls by_label];
    eexists; (split; [reflexivity|]); (split; [reflexivity|]);
    (split; [reflexivity|]);
    cbn [trace]; rewrite <- ?app_assoc, ?calls_app; cbn [calls filter is_call app];
    rewrite ?app_nil_r; reflexivity.
Qed.

Lemma lookup_Some_In {V} label (cols : list (string * V)) v :
  lookup label cols = Some v -> In label (labels cols).
Proof.
  induction cols as [|[k w] rest IH]; simpl; [discriminate|].
  destruct (String.eqb_spec k label) as [->|_]; [auto | intros E; right; auto].
Qed.

Lemma In_enumerate {A} (l : list A) i a : In (i, a) (enumerate l) -> In a l.
Proof. unfold enumerate. apply in_combine_r. Qed.

(** Both members of an ordered pair are lines of the table. *)
Lemma In_permutations2 {A} (l : list A) (pair : A * A) :
  In pair (permutations2 l) -> In (fst pair) l /\ In (snd pair) l.
Proof.
  unfold permutations2. rewrite in_flat_map. intros ([i a] & Hia & Hin).
  rewrite in_flat_map in Hin. destruct Hin as ([j b] & Hjb & Hin). simpl in Hin.
  destruct (Nat.eqb i j); simpl in Hin; [contradiction|].
  destruct Hin as [<-|[]]. simpl. split; eapply In_enumerate; eassumption.
Qed.

(** The loop of line 272 started on any table that agrees with [df] on the
    lines of [df]: it runs to its end, and it calls the correction routine
    for exactly the pairs that are not skipped on [df], in order. *)
Lemma removal_loop peak df pairs :
  (forall pair, In pair pairs ->
     In (fst pair) (labels (df_columns df))
     /\ In (snd pair) (labels (df_columns df))
     /\ ~ In (by_label pair) (labels (df_columns df))) ->
  forall dfk s,
    df_index dfk = df_index df ->
    (forall c, In c (labels (df_columns df)) ->
       lookup c (df_columns dfk) = lookup c (df_columns df)) ->
    exists df' s',
      for_each_with pairs dfk (correct_pair light_curve_peak_match_subtract cfg peak) s
      = (Ok df', s')
      /\ calls (trace s')
         = calls (trace s)
           ++ map (correction_call df peak)
                (filter (fun pair => negb (pair_skipped df pair)) pairs).
Proof.
  induction pairs as [|pair pairs IH]; intros Hpairs dfk s Hindex Hsame.
  - exists dfk, s. simpl. rewrite app_nil_r. split; reflexivity.
  - destruct (Hpairs pair (or_introl eq_refl)) as (Hfrom & Hwith & Hfresh).
    assert (Hvalues : forall c, In c (labels (df_columns df)) ->
                        column_values dfk c = column_values df c).
    { intros c Hc. unfold column_values. rewrite Hsame by exact Hc. reflexivity. }
    assert (Hcurve : forall c, In c (labels (df_columns df)) -> curve dfk c = curve df c).
    { intros c Hc. unfold curve. rewrite Hindex, Hvalues by exact Hc. reflexivity. }
    assert (Hk : forall c, In c (labels (df_columns df)) -> In c (labels (df_columns dfk))).
    { intros c Hc. destruct (In_labels_lookup _ _ Hc) as (v & Hv).
      apply lookup_Some_In with (v := v). rewrite Hsame by exact Hc. exact Hv. }
    destruct (correct_pair_run peak dfk pair s (Hk _ Hfrom) (Hk _ Hwith))
      as (s1 & Hrun & _ & _ & Hcalls).
    assert (Hskip : pair_skipped dfk pair = pair_skipped df pair).
    { unfold pair_skipped. rewrite !Hvalues by assumption. reflexivity. }
    assert (Hcall : correction_call dfk peak pair = correction_call df peak pair).
    { unfold correction_call. rewrite !Hcurve by assumption. reflexivity. }
    rewrite Hskip, Hcall in Hcalls. rewrite Hskip in Hrun.
    simpl for_each_with. rewrite bind_run, Hrun.
    edestruct (IH (fun p Hp => Hpairs p (or_intror Hp))) as (df' & s' & Hrest & Hcalls').
    3: { exists df', s'. split; [exact Hrest|]. rewrite Hcalls', Hcalls.
         simpl filter. destruct (pair_skipped df pair); simpl;
           rewrite <- ?app_assoc; reflexivity. }
    + destruct (pair_skipped df pair); [exact Hindex | simpl; exact Hindex].
    + intros c Hc. destruct (pair_skipped df pair); [exact (Hsame c Hc)|].
      simpl. rewrite lookup_assign_other; [exact (Hsame c Hc)|].
      intros ->. exact (Hfresh Hc).
Qed.

(** C8.  On a windowed table [df] with the lines of [eve_lines], none of which
    is a derived-pair label, the flare-removal stage runs to its end and calls
    the correction routine, in the order of the ordered pairs, for exactly the
    pairs neither of whose two series on [df] is entirely missing.  At a
    pair's turn, on the table and row as they then stand: the derived-pair
    label differs from both lines; a skipped pair returns the table unchanged,
    writes nothing to the row and calls nothing; any other pair stores the
    corrected series under the derived-pair label and the time shift and
    scale factor in the pair's two correction columns. *)
Theorem flare_removal_skips_missing_pairs (peak : Z) (df : DataFrame F)
  (s : State F) :
  labels (df_columns df) = labels (df_columns eve_lines) ->
  (forall pair, In pair (ion_tuples eve_lines) ->
     ~ In (by_label pair) (labels (df_columns eve_lines))) ->
  (exists df' s',
     removal peak df s = (Ok df', s')
     /\ calls (trace s')
        = calls (trace s)
          ++ map (correction_call df peak)
               (filter (fun pair => negb (pair_skipped df pair))
                  (ion_tuples eve_lines)))
  /\
  (forall pair dfk sk,
     In (fst pair) (labels (df_columns dfk)) ->
     In (snd pair) (labels (df_columns dfk)) ->
     by_label pair <> fst pair /\ by_label pair <> snd pair
     /\ exists dfk' sk',
          correct_pair light_curve_peak_match_subtract cfg peak dfk pair sk
          = (Ok dfk', sk')
          /\ if pair_skipped dfk pair then
               dfk' = dfk /\ jedi_row sk' = jedi_row sk
               /\ calls (trace sk') = calls (trace sk)
             else
               lookup (by_label pair) (df_columns dfk')
               = Some (fst (fst (correction_result dfk peak pair)))
               /\ cell_at (by_label pair ++ " Correction Time Shift [s]") sk'
                  = Some (snd (fst (correction_result dfk peak pair)))
               /\ cell_at (by_label pair ++ " Correction Scale Factor") sk'
                  = Some (snd (correction_result dfk peak pair))
               /\ calls (trace sk')
                  = calls (trace sk) ++ [correction_call dfk peak pair]).
Proof.
  intros Hlines Hfresh. split.
  - unfold flare_removal. apply removal_loop; [|reflexivity|reflexivity].
    intros pair Hin. rewrite Hlines.
    destruct (In_permutations2 _ _ Hin) as (Hfrom & Hwith).
    split; [exact Hfrom|]. split; [exact Hwith|]. exact (Hfresh pair Hin).
  - intros pair dfk sk Hfrom Hwith.
    destruct (by_label_fresh pair) as (Hne1 & Hne2).
    split; [exact Hne1|]. split; [exact Hne2|].
    destruct (correct_pair_run peak dfk pair sk Hfrom Hwith)
      as (sk' & Hrun & _ & Hrow & Hcalls).
    eexists. exists sk'. split; [exact Hrun|].
    unfold cell_at. rewrite Hrow, Hcalls.
    destruct (pair_skipped dfk pair).
    + rewrite app_nil_r. repeat split.
    + split; [apply lookup_assign_same|]. split; [|split; [|reflexivity]].
      * rewrite lookup_assign_other
          by (apply same_line_other_suffix; discriminate).
        apply lookup_assign_same.
      * apply lookup_assign_same.
Qed.

(** *** The first turn on the reuse branch *)

Local Abbreviation catalog :=
  (generate_jedi_catalog determine_preflare_irradiance
     light_curve_peak_match_subtract automatic_fit_coronal_dimming_light_curve
     determine_dimming_depth determine_dimming_slope determine_dimming_duration
     cfg eve_lines).

Lemma labels_jedi_row_definition (lines : list string) :
  labels (@jedi_row_definition F lines) = jedi_columns lines.
Proof.
  unfold labels, jedi_row_definition. rewrite map_map.
  generalize (jedi_columns lines). intros l. apply map_id.
Qed.

Ltac run_steps :=
  cbv beta iota zeta delta
    [bind ret raise when set_cell read read_local set_jedi_row set_csv_file
     set_preflare_irradiance emit fst snd is_ok
     preflare_irradiance preflare_window_start preflare_window_end
     jedi_row csv_file trace].

(** A turn on the reuse branch returns only when the logger exists and the
    window bounds have been assigned. *)
Lemma reuse_needs_window i flare previous s :
  i <> 0 ->
  nth_error goes_flare_events i = Some flare ->
  nth_error goes_flare_events (i - 1) = Some previous ->
  independent_of_last_flare cfg flare previous = false ->
  is_ok (fst (turn i s)) = true ->
  verbose cfg = true /\ preflare_window_start s <> None.
Proof.
  intros Hi0 Hi Hprev Hgap. apply Nat.eqb_neq in Hi0.
  destruct s as [irradiance0 [start0|] end0 row0 csv0 trace0];
    [intros Hok; split; [|discriminate]|];
    revert Hok || idtac;
    unfold process_flare, resolve_preflare_irradiance, logger_info, flare_at;
    rewrite Hi0, Hi; run_steps; rewrite Hprev; run_steps; rewrite Hgap;
    destruct (verbose cfg); run_steps; intros E;
    first [reflexivity | discriminate E].
Qed.

(** C10, as the code has it.  When the second flare of the list peaks within
    the threshold of the first, the turn of flare 1 takes the reuse branch
    before any recomputation and the run stops there with an unbound local:
    [logger] at the branch's own log call when [verbose] is off,
    [preflare_window_start] at line 224 when it is on.  Nothing of that turn
    reaches the file, which keeps the header and the all-NaN row of line 172;
    the hold-over irradiance is still [None] and was not stored in the row,
    which only got the three GOES fields.  In any later state, a turn on the
    reuse branch returns only if [verbose] is on and the window start has
    been assigned, which only a recomputation does. *)
Theorem reuse_before_any_recomputation_raises (first second : Flare) :
  nth_error goes_flare_events 0 = Some first ->
  nth_error goes_flare_events 1 = Some second ->
  independent_of_last_flare cfg second first = false ->
  let run := catalog goes_flare_events in
  let lines := labels (df_columns eve_lines) in
  fst run = Raise (UnboundLocalError
                     (if verbose cfg then "preflare_window_start" else "logger"))
  /\ csv_file (snd run) = [Header (jedi_columns lines); Row (jedi_row_definition lines)]
  /\ preflare_irradiance (snd run) = None
  /\ jedi_row (snd run)
     = assign "GOES Flare Class" (Text (class second))
         (assign "GOES Flare Peak Time" (Instant (peak_time second))
            (assign "GOES Flare Start Time" (Instant (start_time second))
               (jedi_row_definition lines)))
  /\ (forall i flare previous s,
        i <> 0 ->
        nth_error goes_flare_events i = Some flare ->
        nth_error goes_flare_events (i - 1) = Some previous ->
        independent_of_last_flare cfg flare previous = false ->
        is_ok (fst (turn i s)) = true ->
        verbose cfg = true /\ preflare_window_start s <> None).
Proof.
  intros Hfirst Hsecond Hgap run lines.
  assert (Hrun : exists t,
    run = (Raise (UnboundLocalError
                    (if verbose cfg then "preflare_window_start" else "logger")),
           {| preflare_irradiance := None;
              preflare_window_start := None;
              preflare_window_end := None;
              jedi_row :=
                assign "GOES Flare Class" (Text (class second))
                  (assign "GOES Flare Peak Time" (Instant (peak_time second))
                     (assign "GOES Flare Start Time" (Instant (start_time second))
                        (jedi_row_definition lines)));
              csv_file := [Header (jedi_columns lines);
                           Row (jedi_row_definition lines)];
              trace := t |})).
  { subst run lines. clear - Hfirst Hsecond Hgap.
    destruct goes_flare_events as [|f0 [|f1 rest]]; try discriminate.
    injection Hfirst as ->. injection Hsecond as ->.
    unfold generate_jedi_catalog, flare_loop, num_flares, setup.
    cbn [List.length seq for_each].
    unfold process_flare at 1 2, resolve_preflare_irradiance, logger_info, blank.
    cbn [Nat.eqb flare_at nth_error Nat.sub Nat.add].
    destruct (verbose cfg); run_steps; rewrite Hgap; run_steps;
      rewrite ?labels_jedi_row_definition; eexists; reflexivity. }
  destruct Hrun as (t & ->).
  repeat (split; [reflexivity|]). apply reuse_needs_window.
Qed.

(** *** The last flare of the list *)

Lemma fails_later {A B} (c : @M F A) (k : A -> @M F B) :
  (forall a, fails (k a)) -> fails (bind c k).
Proof.
  intros Hk s. rewrite bind_run.
  destruct (c s) as [[a|e] s1]; [apply Hk | reflexivity].
Qed.

Lemma fails_out_of_range {B} i (k : Flare -> @M F B) :
  List.length goes_flare_events <= i ->
  fails (bind (flare_at goes_flare_events i) k).
Proof.
  intros Hi s. rewrite bind_run. unfold flare_at.
  apply nth_error_None in Hi. rewrite Hi. reflexivity.
Qed.

(** The turn of the last flare of a list of two or more raises at line 234 at
    the latest, where it reads the peak of a flare after the last, and leaves
    the file as it found it. *)
Lemma last_turn_raises i s :
  i <> 0 -> S i = List.length goes_flare_events ->
  is_ok (fst (turn i s)) = false /\ csv_file (snd (turn i s)) = csv_file s.
Proof.
  intros Hi0 Hlast.
  assert (Hfails : fails (turn i)).
  { unfold process_flare. apply Nat.eqb_neq in Hi0. rewrite Hi0.
    repeat first
      [ apply fails_out_of_range; lia
      | apply fails_later; intro ]. }
  split; [apply Hfails|].
  rewrite (turn_appends Hi0 s), Hfails. apply app_nil_r.
Qed.
(** A run on two or more flares never returns: if nothing stops it earlier,
    the turn of the last flare does. *)
Lemma run_stops_at_last_flare :
  2 <= List.length goes_flare_events ->
  is_ok (fst (catalog goes_flare_events)) = false.
Proof.
  intros Hlen. unfold generate_jedi_catalog, flare_loop, num_flares.
  destruct (List.length goes_flare_events) as [|n] eqn:Hn; [lia|].
  rewrite seq_S, bind_run. simpl.
  destruct (setup cfg eve_lines blank) as [[[]|e] s0]; [|reflexivity].
  rewrite for_each_app, bind_run.
  destruct (for_each (seq 0 n) turn s0) as [[[]|e] s1]; [|reflexivity].
  simpl. rewrite bind_run.
  destruct (last_turn_raises (i := n) s1) as (Hraise & _); [lia | congruence |].
  destruct (turn n s1) as [[[]|e] s2]; [discriminate | reflexivity].
Qed.

(** *** A window cut by the next flare *)



(** When the two offsets together are at least the minimum window, a window
    that is not cut is long enough: the skip of line 250 is never taken. *)
Lemma short_window_is_cut flare next :
  (threshold_minimum_dimming_window_minutes cfg
   <= dimming_window_relative_to_flare_minutes_right cfg
      + dimming_window_relative_to_flare_minutes_left cfg)%Z ->
  window_too_short cfg flare next <> Ok true.
Proof.
  intros Hwide. unfold window_too_short, bracket_time_right, next_flare_time.
  destruct (user_choice_time cfg flare <? peak_time next)%Z; [|discriminate].
  destruct (Z.ltb_spec (user_choice_time cfg flare - bracket_time_left cfg flare)
              (minutes (threshold_minimum_dimming_window_minutes cfg)))
    as [Hlt|_]; [|discriminate].
  exfalso. unfold user_choice_time, bracket_time_left, minutes in Hlt. lia.
Qed.



(** The table a turn hands to the flare removal has the lines of
    [eve_lines]. *)
Lemma windowed_table_lines left right baseline df :
  to_percent (loc_slice left right eve_lines) baseline = Ok df ->
  labels (df_columns df) = labels (df_columns eve_lines).
Proof.
  unfold to_percent.
  destruct (Nat.eqb_spec (List.length baseline)
              (List.length (df_columns (loc_slice left right eve_lines))))
    as [Hlen|_]; [|discriminate].
  intros [= <-]. simpl in *. unfold labels. rewrite !map_map. simpl.
  rewrite <- (map_map fst fst), map_fst_combine by exact Hlen.
  rewrite map_map. reflexivity.
Qed.

End PipelineFacts.

(** * Runs on the small instance *)

Section Runs.
Import Toy.

(** C1.  A list of two flares: flare 1 is the last one, its turn reads the
    peak of a flare 2 that does not exist (line 234) and the run stops with
    [IndexError] before either write of the loop; the file holds the header
    and the all-NaN row written with it, and no row for flare 1. *)
Theorem last_flare_gets_no_row :
  List.length two_flares = 2
  /\ fst (run quiet one_line two_flares) = Raise IndexError
  /\ csv_file (snd (run quiet one_line two_flares))
     = [Header (jedi_columns ["17.1"]); Row (jedi_row_definition ["17.1"])]
  /\ run chatty one_line two_flares
     = (Raise IndexError, snd (run chatty one_line two_flares))
  /\ csv_file (snd (run chatty one_line two_flares))
     = csv_file (snd (run quiet one_line two_flares)).
Proof. vm_compute. repeat split. Qed.

(** The row of a flare skipped at the window test carries the pre-flare
    irradiance of its line: flare 1 of three, with a one-hour window under a
    two-hour minimum and no flare cutting the window. *)
Lemma skipped_row_carries_baseline :
  window_too_short short_window (flare 300) (flare 1000) = Ok true
  /\ flare_interrupt short_window (flare 300) (flare 1000) = false
  /\ exists row,
       nth_error (csv_file (snd (run short_window one_line lone_then_late))) 2
       = Some (Row row)
       /\ lookup "GOES Flare Peak Time" row = Some (Instant (peak_time (flare 300)))
       /\ lookup "17.1 Pre-Flare Irradiance [W/m2]" row = Some (Num (q 2))
       /\ is_missing (Num (q 2)) = false.
Proof.
  split; [reflexivity|]. split; [reflexivity|].
  eexists. split; [vm_compute; reflexivity|]. vm_compute. repeat split.
Qed.

(** C2.  The default thresholds and four flares, flare 2 peaking an hour
    after flare 1.  The window of flare 1 ends at the peak of flare 2 and is
    an hour long, under the minimum of two hours: the flare is one to skip
    with a row of its own.  But the right bound is then the text of line
    234, the subtraction of line 248 raises [TypeError] and the run stops:
    no row is written for flare 1, with [verbose] off or on, and none for
    the flares after it.  With the default offsets this is so for every
    window under the minimum, the skip of line 250 is never reached. *)
Theorem short_cut_window_gets_no_row :
  bracket_time_right quiet (flare 300) (flare 360) = IsoText (peak_time (flare 360))
  /\ (peak_time (flare 360) - bracket_time_left quiet (flare 300)
      < minutes (threshold_minimum_dimming_window_minutes quiet))%Z
  /\ window_too_short quiet (flare 300) (flare 360) = Raise TypeError
  /\ fst (run quiet one_line cut_short) = Raise TypeError
  /\ csv_file (snd (run quiet one_line cut_short))
     = [Header (jedi_columns ["17.1"]); Row (jedi_row_definition ["17.1"])]
  /\ fst (run chatty one_line cut_short) = Raise TypeError
  /\ csv_file (snd (run chatty one_line cut_short))
     = [Header (jedi_columns ["17.1"]); Row (jedi_row_definition ["17.1"])]
  /\ (forall v flare next, window_too_short (default_config v) flare next <> Ok true).
Proof.
  do 7 (split; [vm_compute; first [reflexivity | repeat split]|]).
  intros v flare next. apply short_window_is_cut. destruct v; vm_compute; discriminate.
Qed.


(** C5.  With a left offset of -30 minutes the left edge of the window is 30
    minutes after the peak: line 233 subtracts the offset. *)
Theorem negative_left_offset_lands_after_peak :
  dimming_window_relative_to_flare_minutes_left early_left = (-30)%Z
  /\ bracket_time_left early_left (flare 300)
     = (peak_time (flare 300) + minutes 30)%Z
  /\ bracket_time_left early_left (flare 300)
     <> (peak_time (flare 300)
         + minutes (dimming_window_relative_to_flare_minutes_left early_left))%Z
  /\ (peak_time (flare 300) < bracket_time_left early_left (flare 300))%Z.
Proof. vm_compute. repeat split; discriminate. Qed.

(** C7.  Four flares, the third within the threshold of the second, no
    window cut or too short.  With [verbose] off the reuse branch of the
    third flare calls a logger that was never made and the run stops with one
    flare row written; with [verbose] on the same turn goes through and its
    row is written too. *)
Theorem verbose_changes_catalog :
  csv_file (snd (run (narrow false) one_line close_pair))
  <> csv_file (snd (run (narrow true) one_line close_pair))
  /\ flare_interrupt (narrow false) (flare 300) (flare 400) = false
  /\ window_too_short (narrow false) (flare 300) (flare 400) = Ok false
  /\ independent_of_last_flare (narrow false) (flare 400) (flare 300) = false
  /\ fst (run (narrow false) one_line close_pair)
     = Raise (UnboundLocalError "logger")
  /\ List.length
       (filter is_data_line (csv_file (snd (run (narrow false) one_line close_pair))))
     = 2
  /\ List.length
       (filter is_data_line (csv_file (snd (run (narrow true) one_line close_pair))))
     = 3.
Proof.
  split; [|vm_compute; repeat split].
  intros E. apply (f_equal (@List.length _)) in E. vm_compute in E. discriminate.
Qed.

(** When flare 1 peaks within the threshold of flare 0 the run stops before
    line 227: no cell of the row holds [None] and nothing is appended to the
    file, with [verbose] on or off. *)
Lemma none_baseline_never_stored :
  independent_of_last_flare chatty (flare 100) (flare 0) = false
  /\ fst (run chatty one_line near_start)
     = Raise (UnboundLocalError "preflare_window_start")
  /\ holds_none (jedi_row (snd (run chatty one_line near_start))) = false
  /\ filter is_data_line (csv_file (snd (run chatty one_line near_start)))
     = [Row (jedi_row_definition ["17.1"])]
  /\ fst (run quiet one_line near_start) = Raise (UnboundLocalError "logger")
  /\ holds_none (jedi_row (snd (run quiet one_line near_start))) = false
  /\ filter is_data_line (csv_file (snd (run quiet one_line near_start)))
     = [Row (jedi_row_definition ["17.1"])].
Proof. vm_compute. repeat split. Qed.

(** *** The general statements at work *)

Lemma baseline_reused_witness :
  preflare_irradiance (snd (turns (narrow true) one_line close_pair 3))
  = preflare_irradiance (snd (turns (narrow true) one_line close_pair 2)).
Proof.
  refine (proj1 (baseline_reused_within_threshold preflare peak_match_subtract
                   fit depth slope duration (narrow true) one_line close_pair
                   (i := 2) (flare := flare 400) (previous := flare 300)
                   _ _ _) _).
  - lia.
  - reflexivity.
  - reflexivity.
  - vm_compute. discriminate.
Defined.

Lemma flare_removal_witness :
  exists df' s',
    flare_removal peak_match_subtract chatty three_lines 18000 three_lines blank
    = (Ok df', s')
    /\ calls (trace s')
       = [correction_call three_lines 18000 ("17.1", "19.5");
          correction_call three_lines 18000 ("19.5", "17.1")].
Proof.
  refine (proj1 (flare_removal_skips_missing_pairs peak_match_subtract chatty
                   three_lines 18000 three_lines blank _ _)).
  - reflexivity.
  - intros pair Hin Hline. vm_compute in Hin.
    repeat (destruct Hin as [<-|Hin]; [vm_compute in Hline; intuition discriminate|]).
    exact Hin.
Defined.

Lemma percent_conversion_witness :
  exists out,
    convert_to_percent one_line holding_two = (Ok out, holding_two)
    /\ df_index out = df_index one_line.
Proof.
  destruct (percent_conversion_elementwise one_line (baseline := [Some (q 2)])
              holding_two eq_refl eq_refl) as (out & Hrun & Hindex & _).
  exists out. split; assumption.
Defined.

Lemma reuse_raises_witness :
  fst (run chatty one_line near_start)
  = Raise (UnboundLocalError "preflare_window_start").
Proof.
  refine (proj1 (reuse_before_any_recomputation_raises preflare
                   peak_match_subtract fit depth slope duration chatty one_line
                   near_start (first := flare 0) (second := flare 100) _ _ _)).
  - reflexivity.
  - reflexivity.
  - reflexivity.
Defined.
End Runs.

(** * The schema and the ordered pairs (lines 128-169) *)

Lemma In_enumerate_from {A} (l : list A) k i a :
  In (i, a) (combine (seq k (List.length l)) l)
  <-> k <= i /\ nth_error l (i - k) = Some a.
Proof.
  revert k. induction l as [|x l IH]; intros k; simpl.
  - split; [contradiction|]. intros (_ & E). destruct (i - k); discriminate.
  - rewrite IH. split.
    + intros [[= <- <-]|(Hle & Hnth)].
      * split; [lia|]. rewrite Nat.sub_diag. reflexivity.
      * split; [lia|]. replace (i - k) with (S (i - S k)) by lia. exact Hnth.
    + intros (Hle & Hnth). destruct (i - k) as [|m] eqn:Hm.
      * left. injection Hnth as ->. f_equal. lia.
      * right. split; [lia|]. replace (i - S k) with m by lia. exact Hnth.
Qed.

(** [enumerate] pairs every element with its position. *)
Lemma In_enumerate_iff {A} (l : list A) i a :
  In (i, a) (enumerate l) <-> nth_error l i = Some a.
Proof.
  unfold enumerate. rewrite In_enumerate_from, Nat.sub_0_r.
  split; [intros (_ & E); exact E | intros E; split; [lia | exact E]].
Qed.

Lemma length_flat_map_const {A B} (f : A -> list B) (l : list A) c :
  (forall x, In x l -> List.length (f x) = c) ->
  List.length (flat_map f l) = List.length l * c.
Proof.
  induction l as [|x l IH]; intros Hc; simpl; [reflexivity|].
  rewrite length_app, Hc by (left; reflexivity).
  rewrite IH by (intros y Hy; apply Hc; right; exact Hy). reflexivity.
Qed.

(** Among the positions [k .. k + n - 1], all but [i] remain. *)
Lemma others_count {A} (l : list A) k i (a : A) :
  List.length
    (flat_map (fun jb : nat * A =>
                 if Nat.eqb i (fst jb) then [] else [(a, snd jb)])
       (combine (seq k (List.length l)) l))
  = List.length l
    - (if Nat.leb k i && Nat.ltb i (k + List.length l) then 1 else 0).
Proof.
  revert k. induction l as [|x l IH]; intros k;
    cbn [List.length seq combine flat_map fst snd].
  - destruct (Nat.leb k i && Nat.ltb i (k + 0)); reflexivity.
  - rewrite length_app, IH.
    destruct (Nat.eqb_spec i k), (Nat.leb_spec (S k) i), (Nat.leb_spec k i),
      (Nat.ltb_spec i (S k + List.length l)),
      (Nat.ltb_spec i (k + S (List.length l)));
      cbn [List.length andb]; lia.
Qed.

Lemma length_enumerate {A} (l : list A) :
  List.length (enumerate l) = List.length l.
Proof.
  unfold enumerate. rewrite length_combine, length_seq. apply Nat.min_id.
Qed.

Lemma length_permutations2 {A} (l : list A) :
  List.length (permutations2 l) = List.length l * (List.length l - 1).
Proof.
  unfold permutations2.
  rewrite (length_flat_map_const _ _ (c := List.length l - 1));
    [rewrite length_enumerate; reflexivity|].
  intros [i a] Hin. simpl.
  apply In_enumerate_iff in Hin.
  assert (Hi : i < List.length l) by (apply nth_error_Some; congruence).
  unfold enumerate. rewrite (others_count l 0 i a). simpl.
  destruct (Nat.ltb_spec i (List.length l)); [reflexivity | lia].
Qed.

Lemma length_suffixed (index suffixes : list string) :
  List.length (suffixed index suffixes)
  = List.length suffixes * List.length index.
Proof.
  unfold suffixed. apply length_flat_map_const.
  intros suffix _. apply length_map.
Qed.

(** The ordered pairs are the pairs of entries at two different positions:
    each unordered pair of lines comes in both orders, and with distinct
    labels no line is paired with itself. *)
Theorem ordered_pairs_of_distinct_positions {A} (l : list A) (a b : A) :
  (In (a, b) (permutations2 l)
   <-> exists i j, i <> j /\ nth_error l i = Some a /\ nth_error l j = Some b)
  /\ (In (a, b) (permutations2 l) -> In (b, a) (permutations2 l))
  /\ (NoDup l -> In (a, b) (permutations2 l) -> a <> b).
Proof.
  assert (Hiff : forall x y,
    In (x, y) (permutations2 l)
    <-> exists i j, i <> j /\ nth_error l i = Some x /\ nth_error l j = Some y).
  { intros x y. unfold permutations2. rewrite in_flat_map. split.
    - intros ([i x'] & Hi & Hin). rewrite in_flat_map in Hin.
      destruct Hin as ([j y'] & Hj & Hin). simpl in Hin.
      destruct (Nat.eqb_spec i j) as [|Hne]; [contradiction|].
      destruct Hin as [[= -> ->]|[]].
      exists i, j. rewrite <- !In_enumerate_iff. auto.
    - intros (i & j & Hne & Hi & Hj). exists (i, x).
      rewrite In_enumerate_iff. split; [exact Hi|].
      rewrite in_flat_map. exists (j, y). rewrite In_enumerate_iff.
      split; [exact Hj|]. simpl.
      destruct (Nat.eqb_spec i j); [contradiction | left; reflexivity]. }
  split; [apply Hiff|]. split.
  - rewrite !Hiff. intros (i & j & Hne & Hi & Hj). exists j, i. auto.
  - intros Hnodup Hin Heq. subst b. apply Hiff in Hin as (i & j & Hne & Hi & Hj).
    apply Hne. rewrite NoDup_nth_error in Hnodup. apply Hnodup.
    + apply nth_error_Some. congruence.
    + congruence.
Qed.

(** The size of the catalog row: six flare columns, fifteen per line and
    sixteen per ordered pair of lines; there are [n * (n - 1)] ordered pairs
    of [n] lines. *)
Theorem catalog_row_width (lines : list string) :
  let n := List.length lines in
  List.length (ion_permutations lines) = n * (n - 1)
  /\ List.length (jedi_columns lines) = 6 + 15 * n + 16 * (n * (n - 1)).
Proof.
  intros n. subst n.
  assert (Hpairs : List.length (ion_permutations lines)
                   = List.length lines * (List.length lines - 1)).
  { unfold ion_permutations. rewrite length_map. apply length_permutations2. }
  split; [exact Hpairs|].
  unfold jedi_columns. rewrite !length_app, !length_suffixed, Hpairs.
  reflexivity.
Qed.

(** * Clipping a table to a window (lines 206-208 and 260) *)

Section Slices.
Context {F : Type}.

Lemma select_filter {A} (p : A -> bool) (l : list A) :
  select (map p l) l = filter p l.
Proof.
  induction l as [|x l IH]; simpl; [reflexivity|].
  destruct (p x); rewrite IH; reflexivity.
Qed.

Lemma select_combine {A B} (p : A -> bool) (l : list A) (l' : list B) :
  combine (select (map p l) l) (select (map p l) l')
  = filter (fun ab => p (fst ab)) (combine l l').
Proof.
  revert l'. induction l as [|x l IH]; intros [|y l']; simpl;
    try reflexivity.
  - destruct (p x); simpl; [|destruct (select _ l)]; reflexivity.
  - destruct (p x); simpl; rewrite IH; reflexivity.
Qed.

Lemma lookup_map_values {V W} (g : V -> W) label (cols : list (string * V)) :
  lookup label (map (fun kv => (fst kv, g (snd kv))) cols)
  = option_map g (lookup label cols).
Proof.
  induction cols as [|[k v] cols IH]; simpl; [reflexivity|].
  destruct (String.eqb k label); [reflexivity | exact IH].
Qed.

(** A slice keeps exactly the samples whose instant lies in the window, both
    ends included, and keeps each with its own instant in every column; the
    columns are the same, and a window whose right end is before its left end
    gives an empty table. *)
Theorem loc_slice_keeps_whole_rows (left right : Z) (df : DataFrame F) :
  df_index (loc_slice left right df)
  = filter (in_window left right) (df_index df)
  /\ labels (df_columns (loc_slice left right df)) = labels (df_columns df)
  /\ (forall label values,
        lookup label (df_columns df) = Some values ->
        exists clipped,
          lookup label (df_columns (loc_slice left right df)) = Some clipped
          /\ combine (df_index (loc_slice left right df)) clipped
             = filter (fun tv => in_window left right (fst tv))
                 (combine (df_index df) values))
  /\ ((right < left)%Z -> df_index (loc_slice left right df) = []).
Proof.
  unfold loc_slice. cbn [df_index df_columns].
  change (fun t : Z => (left <=? t)%Z && (t <=? right)%Z)
    with (in_window left right).
  split; [apply select_filter|]. split.
  { unfold labels. rewrite map_map. reflexivity. }
  split.
  { intros label values Hv. rewrite lookup_map_values, Hv. simpl.
    eexists. split; [reflexivity|]. apply select_combine. }
  intros Hlt. rewrite select_filter.
  induction (df_index df) as [|t l IH]; simpl; [reflexivity|].
  unfold in_window at 1.
  destruct (Z.leb_spec left t), (Z.leb_spec t right); simpl; try exact IH. lia.
Qed.
End Slices.

(** * The stages, one by one *)

Section Stages.
Context {F : Type} `{FloatOps F}.
Variable determine_preflare_irradiance :
  LightCurve F -> Z -> bool -> option F.
Variable light_curve_peak_match_subtract :
  LightCurve F -> LightCurve F -> Z -> bool -> list (option F) * cell F * cell F.
Variable automatic_fit_coronal_dimming_light_curve :
  LightCurve F -> list (option F) * cell F * cell F.
Variable determine_dimming_depth :
  LightCurve F -> bool -> cell F * cell F.
Variable determine_dimming_slope :
  LightCurve F -> cell F -> cell F -> bool -> cell F * cell F * cell F.
Variable determine_dimming_duration :
  LightCurve F -> cell F -> bool -> cell F * cell F * cell F.
Variable cfg : Config.
Variable eve_lines : DataFrame F.
Variable goes_flare_events : list Flare.
Implicit Types (df dfk : DataFrame F) (s sk : State F) (pair : string * string).

Local Abbreviation turn :=
  (process_flare determine_preflare_irradiance light_curve_peak_match_subtract
     automatic_fit_coronal_dimming_light_curve determine_dimming_depth
     determine_dimming_slope determine_dimming_duration
     cfg eve_lines goes_flare_events).
Local Abbreviation turns :=
  (run_turns determine_preflare_irradiance light_curve_peak_match_subtract
     automatic_fit_coronal_dimming_light_curve determine_dimming_depth
     determine_dimming_slope determine_dimming_duration
     cfg eve_lines goes_flare_events).
Local Abbreviation catalog :=
  (generate_jedi_catalog determine_preflare_irradiance
     light_curve_peak_match_subtract automatic_fit_coronal_dimming_light_curve
     determine_dimming_depth determine_dimming_slope determine_dimming_duration
     cfg eve_lines goes_flare_events).
Local Abbreviation removal :=
  (flare_removal light_curve_peak_match_subtract cfg eve_lines).
Local Abbreviation fitting :=
  (fit_light_curves automatic_fit_coronal_dimming_light_curve cfg).
Local Abbreviation parameterization :=
  (parameterize determine_dimming_depth determine_dimming_slope
     determine_dimming_duration cfg).
Local Abbreviation lines := (labels (df_columns eve_lines)).

Lemma labels_assign_known {V} label (v : V) (cols : list (string * V)) :
  In label (labels cols) -> labels (assign label v cols) = labels cols.
Proof.
  intros Hin. unfold assign.
  apply has_label_In in Hin. rewrite Hin. apply labels_replace_label.
Qed.

Lemma labels_assign_new {V} label (v : V) (cols : list (string * V)) :
  ~ In label (labels cols) -> labels (assign label v cols) = labels cols ++ [label].
Proof.
  intros Hout. unfold assign.
  destruct (has_label label cols) eqn:E.
  - apply has_label_In in E. contradiction.
  - unfold labels. rewrite map_app. reflexivity.
Qed.

(** ** Fitting (lines 302-326) *)

(** The series the fitting leaves in a column. *)
Definition fitted (df : DataFrame F) (column : string) : list (option F) :=
  if all_null (column_values df column) then column_values df column
  else fst (fst (automatic_fit_coronal_dimming_light_curve (curve df column))).

(** One turn of the loop of line 303, on a table that has the column. *)
Lemma fit_column_run df column s :
  In column (labels (df_columns df)) ->
  exists s',
    fit_column automatic_fit_coronal_dimming_light_curve cfg df column s
    = (Ok (if all_null (column_values df column) then df
           else set_column df column (fitted df column)), s')
    /\ carried s' = carried s
    /\ jedi_row s'
       = (if all_null (column_values df column) then jedi_row s
          else assign (column ++ " Fitting Score")
                 (snd (automatic_fit_coronal_dimming_light_curve (curve df column)))
                 (assign (column ++ " Fitting Gamma")
                    (snd (fst (automatic_fit_coronal_dimming_light_curve
                                 (curve df column))))
                    (jedi_row s)))
    /\ calls (trace s')
       = calls (trace s)
         ++ (if all_null (column_values df column) then []
             else [AutomaticFit column (curve df column)]).
Proof.
  intros Hin. unfold fit_column, fitted.
  rewrite (light_curve_present _ _ Hin).
  unfold logger_info. unfold bind at 1. unfold lift. cbv beta iota.
  change (irradiance (curve df column)) with (column_values df column).
  destruct (all_null (column_values df column));
    destruct (verbose cfg); cbn -[assign append calls];
    eexists; (split; [reflexivity|]); (split; [reflexivity|]);
    (split; [reflexivity|]);
    cbn [trace]; rewrite <- ?app_assoc, ?calls_app; cbn [calls filter is_call app];
    rewrite ?app_nil_r; reflexivity.
Qed.

Lemma fit_loop df columns :
  NoDup columns ->
  (forall c, In c columns -> In c (labels (df_columns df))) ->
  forall dfk s,
    df_index dfk = df_index df ->
    labels (df_columns dfk) = labels (df_columns df) ->
    (forall c, In c columns ->
       lookup c (df_columns dfk) = lookup c (df_columns df)) ->
    exists df' s',
      for_each_with columns dfk
        (fit_column automatic_fit_coronal_dimming_light_curve cfg) s
      = (Ok df', s')
      /\ df_index df' = df_index df
      /\ labels (df_columns df') = labels (df_columns df)
      /\ (forall c, In c columns -> column_values df' c = fitted df c)
      /\ (forall c, ~ In c columns ->
            lookup c (df_columns df') = lookup c (df_columns dfk))
      /\ carried s' = carried s
      /\ calls (trace s')
         = calls (trace s)
           ++ map (fun c => AutomaticFit c (curve df c))
                (filter (fun c => negb (all_null (column_values df c))) columns).
Proof.
  induction columns as [|column columns IH];
    intros Hnodup Hcols dfk s Hindex Hlabels Hsame.
  - exists dfk, s. simpl. rewrite app_nil_r.
    repeat split; try assumption; try reflexivity. intros c [].
  - inversion Hnodup as [|? ? Hfresh Hnodup']; subst.
    assert (Hin : In column (labels (df_columns dfk))).
    { rewrite Hlabels. apply Hcols. left. reflexivity. }
    assert (Hvalues : column_values dfk column = column_values df column).
    { unfold column_values. rewrite Hsame by (left; reflexivity). reflexivity. }
    assert (Hcurve : curve dfk column = curve df column).
    { unfold curve. rewrite Hindex, Hvalues. reflexivity. }
    assert (Hfitted : fitted dfk column = fitted df column).
    { unfold fitted. rewrite Hvalues, Hcurve. reflexivity. }
    destruct (fit_column_run dfk column s Hin) as (s1 & Hrun & Hcar & _ & Hcalls).
    rewrite Hvalues, Hfitted in Hrun. rewrite Hvalues, Hcurve in Hcalls.
    simpl for_each_with. rewrite bind_run, Hrun.
    set (dfk1 := if all_null (column_values df column) then dfk
                 else set_column dfk column (fitted df column)) in *.
    assert (Hindex1 : df_index dfk1 = df_index df).
    { subst dfk1. destruct (all_null _); exact Hindex. }
    assert (Hlabels1 : labels (df_columns dfk1) = labels (df_columns df)).
    { subst dfk1. destruct (all_null _); [exact Hlabels|].
      simpl. rewrite labels_assign_known by exact Hin. exact Hlabels. }
    assert (Hother : forall c, c <> column ->
              lookup c (df_columns dfk1) = lookup c (df_columns dfk)).
    { intros c Hne. subst dfk1. destruct (all_null _); [reflexivity|].
      simpl. apply lookup_assign_other. exact Hne. }
    destruct (IH Hnodup' (fun c Hc => Hcols c (or_intror Hc)) dfk1 s1 Hindex1 Hlabels1)
      as (df' & s' & Hrest & Hi' & Hl' & Hdone & Hkept & Hcar' & Hcalls').
    { intros c Hc. rewrite Hother by (intros ->; contradiction).
      apply Hsame. right. exact Hc. }
    exists df', s'. split; [exact Hrest|]. split; [exact Hi'|].
    split; [exact Hl'|]. split; [|split; [|split]].
    + intros c [<-|Hc]; [|apply Hdone, Hc].
      unfold column_values at 1. rewrite (Hkept column Hfresh).
      subst dfk1. unfold fitted.
      destruct (all_null (column_values df column)) eqn:Hnull.
      * rewrite Hsame by (left; reflexivity). reflexivity.
      * simpl. rewrite lookup_assign_same. reflexivity.
    + intros c Hout. rewrite Hkept by (intros Hc; apply Hout; right; exact Hc).
      apply Hother. intros ->. apply Hout. left. reflexivity.
    + congruence.
    + rewrite Hcalls', Hcalls. simpl filter.
      destruct (all_null (column_values df column)); simpl;
        rewrite <- ?app_assoc; reflexivity.
Qed.

(** On a table with distinct labels the fitting stage returns.  It calls the
    fitting routine once for every column that is not entirely missing, in
    column order and on the series the column held when the stage began;
    each such column then holds the fitted series, the entirely missing ones
    are untouched, and the index and the columns of the table are the same.
    The hold-over irradiance, its window and the file are not touched. *)
Theorem fitting_stage_fits_each_column (df : DataFrame F) (s : State F) :
  NoDup (labels (df_columns df)) ->
  exists df' s',
    fitting df s = (Ok df', s')
    /\ df_index df' = df_index df
    /\ labels (df_columns df') = labels (df_columns df)
    /\ (forall c, In c (labels (df_columns df)) ->
          column_values df' c = fitted df c)
    /\ carried s' = carried s
    /\ calls (trace s')
       = calls (trace s)
         ++ map (fun c => AutomaticFit c (curve df c))
              (filter (fun c => negb (all_null (column_values df c)))
                 (labels (df_columns df))).
Proof.
  intros Hnodup. unfold fit_light_curves.
  destruct (@fit_loop df (labels (df_columns df)) Hnodup (fun c Hc => Hc) df s
              eq_refl eq_refl (fun c _ => eq_refl))
    as (df' & s' & Hrun & Hi & Hl & Hdone & _ & Hcar & Hcalls).
  exists df', s'. repeat split; assumption.
Qed.

(** ** Flare removal (lines 271-295): what the stage leaves behind *)

Lemma append_inj_r (x y suffix : string) :
  (x ++ suffix = y ++ suffix -> x = y)%string.
Proof.
  revert y. induction x as [|c x IH]; intros [|d y] E; simpl in E.
  - reflexivity.
  - apply (f_equal String.length) in E. simpl in E.
    rewrite length_append in E. lia.
  - apply (f_equal String.length) in E. simpl in E.
    rewrite length_append in E. lia.
  - injection E as -> E. f_equal. apply IH, E.
Qed.

(** A suffix no longer than [t] ends [x ++ t] exactly when it ends [t]. *)
Lemma ends_with_short (suffix x t : string) :
  String.length suffix <= String.length t ->
  ends_with suffix (x ++ t) = ends_with suffix t.
Proof.
  intros Hlen. induction x as [|c x IH]; cbn [append ends_with]; [reflexivity|].
  rewrite IH. destruct (String.eqb_spec suffix (String c (x ++ t))) as [E|_];
    [|reflexivity].
  apply (f_equal String.length) in E. simpl in E.
  rewrite length_append in E. lia.
Qed.

Lemma shift_is_no_scale_column (x y : string) :
  (x ++ " Correction Time Shift [s]")%string
  <> (y ++ " Correction Scale Factor")%string.
Proof.
  intros E. symmetry in E. revert E. apply suffixed_neq.
  rewrite ends_with_short by (simpl; lia). reflexivity.
Qed.

Definition corrected (df : DataFrame F) (pair : string * string) : bool :=
  negb (pair_skipped df pair).

Lemma removal_table_loop peak df pairs :
  NoDup (map by_label pairs) ->
  (forall pair, In pair pairs ->
     In (fst pair) (labels (df_columns df))
     /\ In (snd pair) (labels (df_columns df))
     /\ ~ In (by_label pair) (labels (df_columns df))) ->
  forall dfk s,
    df_index dfk = df_index df ->
    (forall c, In c (labels (df_columns df)) ->
       lookup c (df_columns dfk) = lookup c (df_columns df)) ->
    (forall pair, In pair pairs -> ~ In (by_label pair) (labels (df_columns dfk))) ->
    exists df' s',
      for_each_with pairs dfk (correct_pair light_curve_peak_match_subtract cfg peak) s
      = (Ok df', s')
      /\ df_index df' = df_index df
      /\ labels (df_columns df')
         = labels (df_columns dfk) ++ map by_label (filter (corrected df) pairs)
      /\ (forall c, ~ In c (map by_label (filter (corrected df) pairs)) ->
            lookup c (df_columns df') = lookup c (df_columns dfk))
      /\ (forall pair, In pair pairs -> corrected df pair = true ->
            lookup (by_label pair) (df_columns df')
            = Some (fst (fst (correction_result light_curve_peak_match_subtract
                                cfg df peak pair)))
            /\ cell_at (by_label pair ++ " Correction Time Shift [s]") s'
               = Some (snd (fst (correction_result light_curve_peak_match_subtract
                                   cfg df peak pair)))
            /\ cell_at (by_label pair ++ " Correction Scale Factor") s'
               = Some (snd (correction_result light_curve_peak_match_subtract
                              cfg df peak pair)))
      /\ (forall target,
            (forall pair, In pair pairs -> corrected df pair = true ->
               target <> (by_label pair ++ " Correction Time Shift [s]")%string
               /\ target <> (by_label pair ++ " Correction Scale Factor")%string) ->
            cell_at target s' = cell_at target s).
Proof.
  unfold corrected.
  induction pairs as [|pair pairs IH];
    intros Hnodup Hpairs dfk s Hindex Hsame Hnew.
  - exists dfk, s. simpl. rewrite app_nil_r.
    split; [reflexivity|]. split; [exact Hindex|]. split; [reflexivity|].
    split; [reflexivity|]. split; [intros ? []|reflexivity].
  - simpl in Hnodup. inversion Hnodup as [|? ? Hfresh Hnodup']; subst.
    destruct (Hpairs pair (or_introl eq_refl)) as (Hfrom & Hwith & Hline).
    assert (Hvalues : forall c, In c (labels (df_columns df)) ->
                        column_values dfk c = column_values df c).
    { intros c Hc. unfold column_values. rewrite Hsame by exact Hc. reflexivity. }
    assert (Hcurve : forall c, In c (labels (df_columns df)) -> curve dfk c = curve df c).
    { intros c Hc. unfold curve. rewrite Hindex, Hvalues by exact Hc. reflexivity. }
    assert (Hk : forall c, In c (labels (df_columns df)) -> In c (labels (df_columns dfk))).
    { intros c Hc. destruct (In_labels_lookup _ _ Hc) as (v & Hv).
      apply lookup_Some_In with (v := v). rewrite Hsame by exact Hc. exact Hv. }
    destruct (correct_pair_run light_curve_peak_match_subtract cfg peak dfk pair s
                (Hk _ Hfrom) (Hk _ Hwith))
      as (s1 & Hrun & _ & Hrow & _).
    assert (Hskip : pair_skipped dfk pair = pair_skipped df pair).
    { unfold pair_skipped. rewrite !Hvalues by assumption. reflexivity. }
    assert (Hres : correction_result light_curve_peak_match_subtract cfg dfk peak pair
                   = correction_result light_curve_peak_match_subtract cfg df peak pair).
    { unfold correction_result. rewrite !Hcurve by assumption. reflexivity. }
    rewrite Hskip, Hres in Hrun, Hrow.
    simpl for_each_with. rewrite bind_run, Hrun.
    set (out := correction_result light_curve_peak_match_subtract cfg df peak pair) in *.
    set (dfk1 := if pair_skipped df pair then dfk
                 else set_column dfk (by_label pair) (fst (fst out))) in *.
    assert (Hpair_new : ~ In (by_label pair) (labels (df_columns dfk))).
    { apply Hnew. left. reflexivity. }
    assert (Hlabels1 : labels (df_columns dfk1)
                       = labels (df_columns dfk)
                         ++ (if pair_skipped df pair then [] else [by_label pair])).
    { subst dfk1. destruct (pair_skipped df pair); [symmetry; apply app_nil_r|].
      simpl. apply labels_assign_new, Hpair_new. }
    assert (Hother : forall c, c <> by_label pair ->
              lookup c (df_columns dfk1) = lookup c (df_columns dfk)).
    { intros c Hne. subst dfk1. destruct (pair_skipped df pair); [reflexivity|].
      simpl. apply lookup_assign_other, Hne. }
    destruct (IH Hnodup' (fun p Hp => Hpairs p (or_intror Hp)) dfk1 s1)
      as (df' & s' & Hrest & Hi' & Hl' & Hkept & Hdone & Hcells).
    { subst dfk1. destruct (pair_skipped df pair); exact Hindex. }
    { intros c Hc. rewrite Hother; [exact (Hsame c Hc)|].
      intros ->. exact (Hline Hc). }
    { intros p Hp. rewrite Hlabels1. intros Hin. apply in_app_or in Hin as [Hin|Hin].
      - exact (Hnew p (or_intror Hp) Hin).
      - destruct (pair_skipped df pair); [contradiction|].
        destruct Hin as [E|[]]. apply Hfresh. rewrite E. apply in_map, Hp. }
    assert (Hnotlater : ~ In (by_label pair)
                          (map by_label (filter (fun p => negb (pair_skipped df p)) pairs))).
    { intros Hin. apply Hfresh. apply in_map_iff in Hin as (p & E & Hp).
      apply filter_In in Hp as (Hp & _). rewrite <- E. apply in_map, Hp. }
    exists df', s'. split; [exact Hrest|]. split; [exact Hi'|].
    split; [|split; [|split]].
    + rewrite Hl', Hlabels1. simpl filter.
      destruct (pair_skipped df pair); simpl; rewrite <- ?app_assoc; reflexivity.
    + intros c Hc. simpl in Hc.
      destruct (pair_skipped df pair) eqn:Hs; simpl in Hc.
      * rewrite Hkept by exact Hc. reflexivity.
      * rewrite Hkept by tauto. apply Hother. intros ->. tauto.
    + intros p [<-|Hp] Hns.
      * apply negb_true_iff in Hns.
        assert (Hs1 : forall target,
                  target = (by_label pair ++ " Correction Time Shift [s]")%string
                  \/ target = (by_label pair ++ " Correction Scale Factor")%string ->
                  cell_at target s' = cell_at target s1).
        { intros target Ht. apply Hcells. intros p' Hp' _.
          assert (Hne : by_label pair <> by_label p').
          { intros E. apply Hfresh. rewrite E. apply in_map, Hp'. }
          destruct Ht as [-> | ->]; split; intros E.
          - apply Hne, (append_inj_r _ _ _ E).
          - exact (shift_is_no_scale_column _ _ E).
          - symmetry in E. exact (shift_is_no_scale_column _ _ E).
          - apply Hne, (append_inj_r _ _ _ E). }
        split; [|split].
        -- rewrite Hkept by exact Hnotlater. subst dfk1. rewrite Hns. simpl.
           apply lookup_assign_same.
        -- rewrite Hs1 by (left; reflexivity). unfold cell_at.
           rewrite Hrow, Hns.
           rewrite lookup_assign_other
             by (apply same_line_other_suffix; discriminate).
           apply lookup_assign_same.
        -- rewrite Hs1 by (right; reflexivity). unfold cell_at.
           rewrite Hrow, Hns. apply lookup_assign_same.
      * apply Hdone; assumption.
    + intros target Ht. rewrite Hcells.
      * unfold cell_at. rewrite Hrow.
        destruct (pair_skipped df pair) eqn:Hs; [reflexivity|].
        destruct (Ht pair (or_introl eq_refl)) as (Hshift & Hscale);
          [rewrite Hs; reflexivity|].
        rewrite !lookup_assign_other by assumption. reflexivity.
      * intros p' Hp' Hns. apply Ht; [right; exact Hp' | exact Hns].
Qed.

Lemma NoDup_map_injective {A B} (f : A -> B) (l : list A) (a b : A) :
  NoDup (map f l) -> In a l -> In b l -> f a = f b -> a = b.
Proof.
  induction l as [|x l IH]; simpl; intros Hnodup Ha Hb E; [contradiction|].
  inversion Hnodup as [|? ? Hx Hl]; subst.
  destruct Ha as [->|Ha], Hb as [->|Hb].
  - reflexivity.
  - exfalso. apply Hx. rewrite E. apply in_map, Hb.
  - exfalso. apply Hx. rewrite <- E. apply in_map, Ha.
  - apply IH; assumption.
Qed.

(** Flare removal, lines 271-295.  On a windowed table with the lines of
    [eve_lines], when the derived-pair labels are pairwise distinct and none
    of them is a line label, the stage returns a table with the same index
    whose columns are the lines, unchanged, followed by one new column per
    corrected pair in the order of the ordered pairs, each holding the series
    the correction routine returned on the ORIGINAL two lines (no correction
    feeds another).  The row holds the time shift and scale factor of every
    corrected pair; the two correction cells of a skipped pair are left as
    the stage found them. *)
Theorem removal_stage_adds_pair_columns (peak : Z) (df : DataFrame F)
  (s : State F) :
  labels (df_columns df) = lines ->
  NoDup (map by_label (ion_tuples eve_lines)) ->
  (forall pair, In pair (ion_tuples eve_lines) -> ~ In (by_label pair) lines) ->
  exists df' s',
    removal peak df s = (Ok df', s')
    /\ df_index df' = df_index df
    /\ labels (df_columns df')
       = lines ++ map by_label (filter (corrected df) (ion_tuples eve_lines))
    /\ (forall c, In c lines ->
          lookup c (df_columns df') = lookup c (df_columns df))
    /\ (forall pair, In pair (ion_tuples eve_lines) ->
          if corrected df pair then
            lookup (by_label pair) (df_columns df')
            = Some (fst (fst (correction_result light_curve_peak_match_subtract
                                cfg df peak pair)))
            /\ cell_at (by_label pair ++ " Correction Time Shift [s]") s'
               = Some (snd (fst (correction_result light_curve_peak_match_subtract
                                   cfg df peak pair)))
            /\ cell_at (by_label pair ++ " Correction Scale Factor") s'
               = Some (snd (correction_result light_curve_peak_match_subtract
                              cfg df peak pair))
          else
            lookup (by_label pair) (df_columns df') = None
            /\ cell_at (by_label pair ++ " Correction Time Shift [s]") s'
               = cell_at (by_label pair ++ " Correction Time Shift [s]") s
            /\ cell_at (by_label pair ++ " Correction Scale Factor") s'
               = cell_at (by_label pair ++ " Correction Scale Factor") s).
Proof.
  intros Hlines Hnodup Hfresh.
  destruct (@removal_table_loop peak df (ion_tuples eve_lines) Hnodup) with
    (dfk := df) (s := s)
    as (df' & s' & Hrun & Hindex & Hlabels & Hkept & Hdone & Hcells).
  - intros pair Hin. rewrite Hlines.
    destruct (In_permutations2 _ _ Hin) as (Hfrom & Hwith).
    split; [exact Hfrom|]. split; [exact Hwith|]. exact (Hfresh pair Hin).
  - reflexivity.
  - reflexivity.
  - intros pair Hin. rewrite Hlines. exact (Hfresh pair Hin).
  - assert (Hother : forall pair, In pair (ion_tuples eve_lines) ->
              corrected df pair = false ->
              ~ In (by_label pair)
                  (map by_label (filter (corrected df) (ion_tuples eve_lines)))).
    { intros pair Hin Hskip Hmap. apply in_map_iff in Hmap as (p & E & Hp).
      apply filter_In in Hp as (Hp & Hc).
      rewrite (NoDup_map_injective by_label _ p pair Hnodup Hp Hin E) in Hc.
      congruence. }
    exists df', s'. split; [exact Hrun|]. split; [exact Hindex|].
    split; [rewrite Hlabels, Hlines; reflexivity|]. split.
    + intros c Hc. apply Hkept. intros Hmap.
      apply in_map_iff in Hmap as (p & E & Hp).
      apply filter_In in Hp as (Hp & _). apply (Hfresh p Hp). rewrite E. exact Hc.
    + intros pair Hin. destruct (corrected df pair) eqn:Hc.
      * apply Hdone; assumption.
      * assert (Hne : forall p, In p (ion_tuples eve_lines) ->
                  corrected df p = true -> by_label pair <> by_label p).
        { intros p Hp Hcp E.
          rewrite (NoDup_map_injective by_label _ pair p Hnodup Hin Hp E) in Hc.
          congruence. }
        split; [|split].
        -- rewrite Hkept by (apply Hother; assumption).
           destruct (lookup (by_label pair) (df_columns df)) eqn:Hl; [|reflexivity].
           exfalso. apply (Hfresh pair Hin). rewrite <- Hlines.
           apply lookup_Some_In with (v := l). exact Hl.
        -- apply Hcells. intros p Hp Hcp. split; intros E.
           ++ apply (Hne p Hp Hcp), (append_inj_r _ _ _ E).
           ++ exact (shift_is_no_scale_column _ _ E).
        -- apply Hcells. intros p Hp Hcp. split; intros E.
           ++ symmetry in E. exact (shift_is_no_scale_column _ _ E).
           ++ apply (Hne p Hp Hcp), (append_inj_r _ _ _ E).
Qed.

(** ** Parameterization (lines 328-389) *)

(** The three calls made for a column, none when it is entirely missing. *)
Definition parameter_calls (peak : Z) (df : DataFrame F) (column : string)
  : list (event F) :=
  if all_null (column_values df column) then []
  else [DetermineDimmingDepth column (curve df column);
        DetermineDimmingSlope column (curve df column) (Instant peak)
          (snd (determine_dimming_depth (curve df column) (verbose cfg)));
        DetermineDimmingDuration column (curve df column) (Instant peak)].

(** What lines 343-386 assign for a column, in the order they assign it:
    the results of the depth routine, of the slope routine asked between
    [peak] and the depth time, and of the duration routine asked from
    [peak]. *)
Definition parameter_cells (peak : Z) (df : DataFrame F) (column : string)
  : list (string * cell F) :=
  let lc := curve df column in
  let depth := determine_dimming_depth lc (verbose cfg) in
  let slope :=
    determine_dimming_slope lc (Instant peak) (snd depth) (verbose cfg) in
  let duration := determine_dimming_duration lc (Instant peak) (verbose cfg) in
  [(column ++ " Depth [%]", fst depth);
   (column ++ " Depth Time", snd depth);
   (column ++ " Slope Min [%/s]", fst (fst slope));
   (column ++ " Slope Max [%/s]", snd (fst slope));
   (column ++ " Slope Mean [%/s]", snd slope);
   (column ++ " Slope Start Time", Instant peak);
   (column ++ " Slope End Time", snd depth);
   (column ++ " Duration [s]", fst (fst duration));
   (column ++ " Duration Start Time", snd (fst duration));
   (column ++ " Duration End Time", snd duration)]%string.

(** The row holds the parameters of [column]. *)
Definition parameters_stored (peak : Z) (df : DataFrame F) (column : string)
  (s : State F) : Prop :=
  forall label value,
    In (label, value) (parameter_cells peak df column) ->
    cell_at label s = Some value.

Definition parameter_suffixes : list string :=
  [" Depth [%]"; " Depth Time"; " Slope Min [%/s]"; " Slope Max [%/s]";
   " Slope Mean [%/s]"; " Slope Start Time"; " Slope End Time";
   " Duration [s]"; " Duration Start Time"; " Duration End Time"].

Definition is_parameter_call (e : event F) : bool :=
  match e with
  | DetermineDimmingDepth _ _
  | DetermineDimmingSlope _ _ _ _
  | DetermineDimmingDuration _ _ _ => true
  | _ => false
  end.

(** The calls of the three parameterization routines in a trace. *)
Definition parameter_events (t : list (event F)) : list (event F) :=
  filter is_parameter_call t.

Definition assign_all {V} (kvs : list (string * V)) (cols : list (string * V))
  : list (string * V) :=
  fold_left (fun acc kv => assign (fst kv) (snd kv) acc) kvs cols.

Lemma lookup_assign_all {V} (kvs : list (string * V)) :
  NoDup (map fst kvs) ->
  forall cols,
    (forall k v, In (k, v) kvs -> lookup k (assign_all kvs cols) = Some v)
    /\ (forall target, ~ In target (map fst kvs) ->
          lookup target (assign_all kvs cols) = lookup target cols).
Proof.
  induction kvs as [|[k v] kvs IH]; intros Hnodup cols.
  - split; [intros ? ? []|reflexivity].
  - simpl in Hnodup. inversion Hnodup as [|? ? Hk Hrest]; subst.
    destruct (IH Hrest (assign k v cols)) as (Hin & Hout).
    unfold assign_all in *. simpl. split.
    + intros k' v' [[= <- <-]|Hkv].
      * rewrite Hout by exact Hk. apply lookup_assign_same.
      * apply Hin, Hkv.
    + intros target Htarget. rewrite Hout by tauto.
      apply lookup_assign_other. intros ->. tauto.
Qed.

Lemma parameter_cells_labels peak df column :
  map fst (parameter_cells peak df column)
  = map (fun suffix => (column ++ suffix)%string) parameter_suffixes.
Proof. reflexivity. Qed.

Lemma NoDup_parameter_labels peak df column :
  NoDup (map fst (parameter_cells peak df column)).
Proof.
  rewrite parameter_cells_labels.
  assert (Hsuffixes : NoDup parameter_suffixes).
  { unfold parameter_suffixes.
    repeat (constructor; [simpl; intuition discriminate|]). constructor. }
  induction Hsuffixes as [|suffix l Hout Hl IH]; simpl; constructor; [|exact IH].
  intros Hin. apply in_map_iff in Hin as (other & E & Hin).
  apply append_inj_l in E. subst. exact (Hout Hin).
Qed.

(** Two labels built on suffixes neither of which ends the other differ. *)
Lemma suffixes_apart (x y a b : string) :
  ends_with a b = false -> ends_with b a = false ->
  (x ++ a)%string <> (y ++ b)%string.
Proof.
  intros Hab Hba E.
  destruct (Nat.le_ge_cases (String.length a) (String.length b)) as [Hle|Hle].
  - pose proof (ends_with_append x a) as Hend. rewrite E in Hend.
    rewrite ends_with_short in Hend by exact Hle. congruence.
  - pose proof (ends_with_append y b) as Hend. rewrite <- E in Hend.
    rewrite ends_with_short in Hend by exact Hle. congruence.
Qed.

Lemma parameter_labels_apart (x y a b : string) :
  In a parameter_suffixes -> In b parameter_suffixes ->
  (x ++ a)%string = (y ++ b)%string -> x = y.
Proof.
  intros Ha Hb E.
  assert (Hall : forallb (fun a' =>
                   forallb (fun b' => String.eqb a' b' || negb (ends_with a' b'))
                     parameter_suffixes) parameter_suffixes = true)
    by (vm_compute; reflexivity).
  rewrite forallb_forall in Hall.
  pose proof (Hall a Ha) as Hab. pose proof (Hall b Hb) as Hba.
  rewrite forallb_forall in Hab, Hba.
  specialize (Hab b Hb). specialize (Hba a Ha).
  destruct (String.eqb_spec a b) as [->|Hne].
  - exact (append_inj_r _ _ _ E).
  - exfalso. destruct (String.eqb_spec b a) as [->|_]; [congruence|].
    simpl in Hab, Hba. apply negb_true_iff in Hab, Hba.
    exact (@suffixes_apart x y a b Hab Hba E).
Qed.

Lemma other_column_cells peak df column other target :
  column <> other ->
  In target (map fst (parameter_cells peak df column)) ->
  ~ In target (map fst (parameter_cells peak df other)).
Proof.
  rewrite !parameter_cells_labels. intros Hne Hin Hother.
  apply in_map_iff in Hin as (a & <- & Ha).
  apply in_map_iff in Hother as (b & E & Hb).
  apply Hne. symmetry. exact (parameter_labels_apart _ _ Hb Ha E).
Qed.

(** One turn of the loop of line 329, on a table that has the column. *)
Lemma parameterize_column_run peak df column s :
  In column (labels (df_columns df)) ->
  exists s',
    parameterize_column determine_dimming_depth determine_dimming_slope
      determine_dimming_duration cfg peak df column s
    = (Ok tt, s')
    /\ carried s' = carried s
    /\ jedi_row s'
       = (if all_null (column_values df column) then jedi_row s
          else assign_all (parameter_cells peak df column) (jedi_row s))
    /\ calls (trace s') = calls (trace s) ++ parameter_calls peak df column
    /\ parameter_events (trace s')
       = parameter_events (trace s) ++ parameter_calls peak df column.
Proof.
  intros Hin. unfold parameterize_column, parameter_calls, parameter_cells,
    parameter_events, assign_all.
  rewrite (light_curve_present _ _ Hin).
  unfold logger_info. unfold bind at 1. unfold lift. cbv beta iota.
  change (irradiance (curve df column)) with (column_values df column).
  destruct (all_null (column_values df column));
    destruct (verbose cfg); cbn -[assign append calls filter];
    eexists; (split; [reflexivity|]); (split; [reflexivity|]);
    (split; [reflexivity|]);
    cbn [trace]; rewrite <- ?app_assoc, ?calls_app, ?filter_app;
    cbn [calls filter is_call is_parameter_call app];
    rewrite ?app_nil_r; split; reflexivity.
Qed.

Lemma parameterize_loop peak df columns :
  (forall c, In c columns -> In c (labels (df_columns df))) ->
  forall s,
    exists s',
      for_each columns
        (parameterize_column determine_dimming_depth determine_dimming_slope
           determine_dimming_duration cfg peak df) s
      = (Ok tt, s')
      /\ carried s' = carried s
      /\ calls (trace s')
         = calls (trace s) ++ flat_map (parameter_calls peak df) columns
      /\ parameter_events (trace s')
         = parameter_events (trace s) ++ flat_map (parameter_calls peak df) columns
      /\ (forall c, In c columns -> all_null (column_values df c) = false ->
            parameters_stored peak df c s')
      /\ (forall target,
            (forall c, In c columns -> all_null (column_values df c) = false ->
               ~ In target (map fst (parameter_cells peak df c))) ->
            cell_at target s' = cell_at target s).
Proof.
  induction columns as [|column columns IH]; intros Hcols s.
  - exists s. simpl. rewrite !app_nil_r.
    repeat split; try reflexivity. intros ? [].
  - destruct (parameterize_column_run peak df column s
                (Hcols column (or_introl eq_refl)))
      as (s1 & Hrun & Hcar & Hrow & Hcalls & Hevents).
    destruct (IH (fun c Hc => Hcols c (or_intror Hc)) s1)
      as (s' & Hrest & Hcar' & Hcalls' & Hevents' & Hstored & Hkept).
    exists s'. simpl for_each. rewrite bind_run, Hrun.
    split; [exact Hrest|]. split; [congruence|].
    split; [rewrite Hcalls', Hcalls; simpl; rewrite <- app_assoc; reflexivity|].
    split; [rewrite Hevents', Hevents; simpl; rewrite <- app_assoc; reflexivity|].
    split.
    + intros c [<-|Hc] Hnull; [|exact (Hstored c Hc Hnull)].
      destruct (in_dec string_dec column columns) as [Hlater|Hlast];
        [exact (Hstored column Hlater Hnull)|].
      intros label value Hcell.
      rewrite Hkept.
      * unfold cell_at. rewrite Hrow, Hnull.
        apply (lookup_assign_all _ (NoDup_parameter_labels peak df column)).
        exact Hcell.
      * intros c Hc _. apply other_column_cells with (column := column).
        -- intros ->. exact (Hlast Hc).
        -- apply (in_map fst) in Hcell. exact Hcell.
    + intros target Htarget. rewrite Hkept.
      * unfold cell_at. rewrite Hrow.
        destruct (all_null (column_values df column)) eqn:Hnull; [reflexivity|].
        apply (lookup_assign_all _ (NoDup_parameter_labels peak df column)).
        apply Htarget; [left; reflexivity | exact Hnull].
      * intros c Hc. apply Htarget. right. exact Hc.
Qed.

(** Lines 328-389.  On a table with distinct labels the parameterization
    stage returns.  Column by column, in the order of the table, it calls
    depth, slope and duration for a column that is not entirely missing and
    nothing for one that is.  For every column that is not entirely missing
    the row then holds the depth routine's depth and time, the results of
    the slope routine asked between [peak] and that depth time together with
    these two bounds, and the results of the duration routine asked from
    [peak]; no other cell of the row is touched.  The hold-over irradiance,
    its window and the file are not touched. *)
Theorem parameterization_stage_calls (peak : Z) (df : DataFrame F) (s : State F) :
  NoDup (labels (df_columns df)) ->
  exists s',
    parameterization peak df s = (Ok tt, s')
    /\ carried s' = carried s
    /\ calls (trace s')
       = calls (trace s)
         ++ flat_map (parameter_calls peak df) (labels (df_columns df))
    /\ (forall column,
          In column (labels (df_columns df)) ->
          all_null (column_values df column) = false ->
          let lc := curve df column in
          let depth := determine_dimming_depth lc (verbose cfg) in
          let slope :=
            determine_dimming_slope lc (Instant peak) (snd depth) (verbose cfg) in
          let duration :=
            determine_dimming_duration lc (Instant peak) (verbose cfg) in
          cell_at (column ++ " Depth [%]") s' = Some (fst depth)
          /\ cell_at (column ++ " Depth Time") s' = Some (snd depth)
          /\ cell_at (column ++ " Slope Min [%/s]") s' = Some (fst (fst slope))
          /\ cell_at (column ++ " Slope Max [%/s]") s' = Some (snd (fst slope))
          /\ cell_at (column ++ " Slope Mean [%/s]") s' = Some (snd slope)
          /\ cell_at (column ++ " Slope Start Time") s' = Some (Instant peak)
          /\ cell_at (column ++ " Slope End Time") s' = Some (snd depth)
          /\ cell_at (column ++ " Duration [s]") s' = Some (fst (fst duration))
          /\ cell_at (column ++ " Duration Start Time") s'
             = Some (snd (fst duration))
          /\ cell_at (column ++ " Duration End Time") s' = Some (snd duration))
    /\ (forall target,
          (forall column suffix,
             In column (labels (df_columns df)) ->
             all_null (column_values df column) = false ->
             In suffix parameter_suffixes ->
             target <> (column ++ suffix)%string) ->
          cell_at target s' = cell_at target s).
Proof.
  intros _. unfold parameterize.
  destruct (@parameterize_loop peak df (labels (df_columns df)) (fun c Hc => Hc) s)
    as (s' & Hrun & Hcar & Hcalls & _ & Hstored & Hkept).
  exists s'. split; [exact Hrun|]. split; [exact Hcar|]. split; [exact Hcalls|].
  split.
  - intros column Hcolumn Hnull. cbv zeta.
    specialize (Hstored column Hcolumn Hnull).
    repeat split; apply Hstored; unfold parameter_cells; simpl; tauto.
  - intros target Htarget. apply Hkept. intros c Hc Hnull Hin.
    rewrite parameter_cells_labels in Hin.
    apply in_map_iff in Hin as (suffix & E & Hsuffix).
    exact (Htarget c suffix Hc Hnull Hsuffix (eq_sym E)).
Qed.

(** ** A fresh pre-flare irradiance (lines 204-218) *)

Local Abbreviation recompute :=
  (recompute_preflare_irradiance determine_preflare_irradiance cfg eve_lines).

(** The window of line 206: it ends at the flare's peak and is
    [threshold_time_prior_flare_minutes] long. *)
Definition preflare_window (cfg : Config) (flare : Flare) : Z * Z :=
  ((peak_time flare - minutes (threshold_time_prior_flare_minutes cfg))%Z,
   peak_time flare).

Definition preflare_table (flare : Flare) : DataFrame F :=
  loc_slice (fst (preflare_window cfg flare)) (snd (preflare_window cfg flare))
    eve_lines.

Definition preflare_value (flare : Flare) (column : string) : option F :=
  determine_preflare_irradiance (curve (preflare_table flare) column)
    (start_time flare) (verbose cfg).

Definition preflare_call (flare : Flare) (column : string) : event F :=
  DeterminePreflareIrradiance column (curve (preflare_table flare) column)
    (start_time flare).

Lemma preflare_loop flare columns :
  (forall c, In c columns -> In c (labels (df_columns (preflare_table flare)))) ->
  forall so_far s,
    preflare_irradiance s = Some so_far ->
    exists s',
      for_each_with columns so_far
        (preflare_column determine_preflare_irradiance cfg
           (preflare_table flare) (start_time flare)) s
      = (Ok (so_far ++ map (preflare_value flare) columns), s')
      /\ preflare_irradiance s'
         = Some (so_far ++ map (preflare_value flare) columns)
      /\ preflare_window_start s' = preflare_window_start s
      /\ preflare_window_end s' = preflare_window_end s
      /\ jedi_row s' = jedi_row s
      /\ csv_file s' = csv_file s
      /\ calls (trace s') = calls (trace s) ++ map (preflare_call flare) columns.
Proof.
  induction columns as [|c columns IH]; intros Hin so_far s Hs.
  - exists s. simpl. rewrite !app_nil_r. repeat split; assumption.
  - simpl for_each_with. rewrite bind_run. unfold preflare_column at 1.
    rewrite (light_curve_present _ _ (Hin c (or_introl eq_refl))).
    unfold bind at 1 2 3, lift, emit, set_preflare_irradiance, ret.
    cbv beta iota.
    edestruct (IH (fun c' Hc' => Hin c' (or_intror Hc'))) as (s' & Hrun & Hi & Hrest).
    2: { exists s'. split; [rewrite Hrun|split; [rewrite Hi|]].
         - simpl. rewrite <- app_assoc. reflexivity.
         - simpl. rewrite <- app_assoc. reflexivity.
         - cbn [preflare_window_start preflare_window_end jedi_row csv_file trace]
             in Hrest.
           destruct Hrest as (Hws & Hwe & Hrow & Hfile & Hcalls).
           repeat split; try assumption.
           rewrite Hcalls, calls_app. simpl. rewrite <- app_assoc. reflexivity. }
    reflexivity.
Qed.

Lemma recompute_run (flare : Flare) (s : State F) :
  exists s',
    recompute flare s = (Ok tt, s')
    /\ preflare_irradiance s' = Some (map (preflare_value flare) lines)
    /\ (preflare_window_start s', preflare_window_end s')
       = (Some (fst (preflare_window cfg flare)),
          Some (snd (preflare_window cfg flare)))
    /\ jedi_row s' = jedi_row s
    /\ csv_file s' = csv_file s
    /\ calls (trace s') = calls (trace s) ++ map (preflare_call flare) lines.
Proof.
  unfold recompute_preflare_irradiance. cbv zeta.
  unfold bind at 1 2 3, set_preflare_window_start, set_preflare_window_end,
    set_preflare_irradiance. cbv beta iota.
  assert (Hlines : labels (df_columns (preflare_table flare)) = lines).
  { unfold preflare_table, loc_slice, labels. simpl. rewrite map_map. reflexivity. }
  fold (preflare_table flare). rewrite bind_run.
  edestruct (@preflare_loop flare (labels (df_columns (preflare_table flare))))
    as (s' & Hrun & Hi & Hws & Hwe & Hrow & Hfile & Hcalls).
  3: { unfold preflare_table, preflare_window in Hrun. simpl fst in Hrun.
       simpl snd in Hrun. rewrite Hrun. exists s'. unfold ret.
       rewrite Hi, Hws, Hwe, Hrow, Hfile, Hcalls, Hlines. simpl.
       repeat split. }
  - intros c Hc. exact Hc.
  - reflexivity.
Qed.

(** Lines 204-218.  On a table [eve_lines] with distinct labels,
    recomputing the pre-flare irradiance never raises.  It sets the window to
    the [threshold_time_prior_flare_minutes] before the flare's peak, ending
    at the peak (both ends included in the slice), and leaves as hold-over
    irradiance one value per line of [eve_lines], in column order: the
    routine's result on that line clipped to the window, called with the
    flare's START time.  Row and file are untouched.  (With a duplicated
    label the renaming of line 214 raises in the script; the hypothesis
    keeps the statement to the tables [light_curve] follows.) *)
Theorem fresh_preflare_irradiance (flare : Flare) (s : State F) :
  NoDup lines ->
  exists s',
    recompute flare s = (Ok tt, s')
    /\ preflare_irradiance s' = Some (map (preflare_value flare) lines)
    /\ (preflare_window_start s', preflare_window_end s')
       = (Some (fst (preflare_window cfg flare)),
          Some (snd (preflare_window cfg flare)))
    /\ jedi_row s' = jedi_row s
    /\ csv_file s' = csv_file s
    /\ calls (trace s') = calls (trace s) ++ map (preflare_call flare) lines.
Proof. intros _. exact (recompute_run flare s). Qed.

(** ** What every run keeps *)

Local Abbreviation schema := (jedi_columns lines).

(** The row has the columns of the header, in its order; the file is the
    header followed by data lines over the same columns. *)
Definition schema_ok (s : State F) : Prop :=
  labels (jedi_row s) = schema /\ file_ok schema (csv_file s).

(** [c] keeps row and file well formed, whether it returns or raises, and
    returns only values in [R]. *)
Definition keeps {A} (c : @M F A) (R : A -> Prop) : Prop :=
  triple schema_ok c (fun a s => schema_ok s /\ R a) (fun _ s => schema_ok s).

Lemma schema_transfer s s' :
  labels (jedi_row s') = labels (jedi_row s) -> csv_file s' = csv_file s ->
  schema_ok s -> schema_ok s'.
Proof. intros Hrow Hfile (Hr & Hf). unfold schema_ok. rewrite Hrow, Hfile. auto. Qed.

Lemma keeps_bind {A B} (c : @M F A) (k : A -> @M F B)
  (R : A -> Prop) (R' : B -> Prop) :
  keeps c R -> (forall a, R a -> keeps (k a) R') -> keeps (bind c k) R'.
Proof.
  intros Hc Hk s Hs. rewrite bind_run. specialize (Hc s Hs).
  destruct (c s) as [[a|e] s1]; [|exact Hc].
  destruct Hc as (Hi & Hr). exact (Hk a Hr s1 Hi).
Qed.

Lemma keeps_weaken {A} (c : @M F A) (R R' : A -> Prop) :
  keeps c R -> (forall a, R a -> R' a) -> keeps c R'.
Proof.
  intros Hc HR s Hs. specialize (Hc s Hs).
  destruct (c s) as [[a|e] s1]; [|exact Hc].
  split; [apply Hc | apply HR, Hc].
Qed.

(** A step that leaves the row's labels and the file alone. *)
Lemma keeps_step {A} (c : @M F A) (R : A -> Prop) :
  (forall s, schema_ok s ->
     labels (jedi_row (snd (c s))) = labels (jedi_row s)
     /\ csv_file (snd (c s)) = csv_file s
     /\ forall a, fst (c s) = Ok a -> R a) ->
  keeps c R.
Proof.
  intros Hc s Hs. destruct (Hc s Hs) as (Hrow & Hfile & Hres).
  destruct (c s) as [[a|e] s1]; simpl in *.
  - split; [exact (@schema_transfer s s1 Hrow Hfile Hs) | apply Hres; reflexivity].
  - exact (@schema_transfer s s1 Hrow Hfile Hs).
Qed.

Lemma keeps_preserved {A} (c : @M F A) :
  preserves (@jedi_row F) c -> preserves (@csv_file F) c ->
  keeps c (fun _ => True).
Proof.
  intros Hrow Hfile. apply keeps_step. intros s _.
  rewrite Hrow, Hfile. auto.
Qed.

Lemma keeps_ret {A} (a : A) (R : A -> Prop) : R a -> keeps (ret a) R.
Proof.
  intros Ha. apply keeps_step. intros s _. simpl.
  repeat split. intros a' [= <-]. exact Ha.
Qed.

Lemma keeps_lift {A} (r : result A) (R : A -> Prop) :
  (forall a, r = Ok a -> R a) -> keeps (lift r) R.
Proof. intros Hr. apply keeps_step. intros s _. simpl. auto. Qed.

Lemma keeps_emit (e : event F) : keeps (emit e) (fun _ => True).
Proof. apply keeps_step. intros s _. simpl. auto. Qed.

Lemma keeps_set_cell label (v : cell F) :
  In label schema -> keeps (set_cell label v) (fun _ => True).
Proof.
  intros Hin. apply keeps_step. intros s (Hrow & _). simpl.
  split; [|auto]. apply labels_assign_known. rewrite Hrow. exact Hin.
Qed.

Lemma keeps_logger_info message :
  keeps (logger_info cfg message) (fun _ => True).
Proof.
  apply keeps_step. intros s _. unfold logger_info.
  destruct (verbose cfg); simpl; auto.
Qed.

Lemma keeps_when b (c : @M F unit) :
  keeps c (fun _ => True) -> keeps (when b c) (fun _ => True).
Proof. intros Hc. destruct b; [exact Hc | apply keeps_ret; exact I]. Qed.

Lemma keeps_flare_at i :
  keeps (flare_at goes_flare_events i) (fun _ => True).
Proof.
  apply keeps_step. intros s _. unfold flare_at.
  destruct (nth_error goes_flare_events i); simpl; auto.
Qed.

Lemma keeps_read_local {A} name (field : State F -> option A) :
  keeps (read_local name field) (fun _ => True).
Proof.
  apply keeps_step. intros s _. unfold read_local.
  destruct (field s); simpl; auto.
Qed.

Lemma keeps_to_csv_append : keeps to_csv_append (fun _ => True).
Proof.
  intros s (Hrow & rows & Hfile & Hrows).
  unfold to_csv_append, bind, read, set_csv_file.
  split; [|exact I]. split; [exact Hrow|]. simpl.
  exists (rows ++ [Row (jedi_row s)]). split.
  - rewrite Hfile. reflexivity.
  - apply Forall_app. split; [exact Hrows|]. constructor; [|constructor].
    exists (jedi_row s). split; [reflexivity | exact Hrow].
Qed.

Lemma keeps_for_each {A} (l : list A) (body : A -> @M F unit) :
  (forall x, In x l -> keeps (body x) (fun _ => True)) ->
  keeps (for_each l body) (fun _ => True).
Proof.
  induction l as [|x l IH]; intros Hbody; simpl.
  - apply keeps_ret. exact I.
  - eapply keeps_bind; [apply Hbody; left; reflexivity|].
    intros _ _. apply IH. intros y Hy. apply Hbody. right. exact Hy.
Qed.

Lemma keeps_for_each_with {A B} (l : list A) (b : B)
  (body : B -> A -> @M F B) (R : B -> Prop) :
  R b ->
  (forall b' x, In x l -> R b' -> keeps (body b' x) R) ->
  keeps (for_each_with l b body) R.
Proof.
  revert b. induction l as [|x l IH]; intros b Hb Hbody; simpl.
  - apply keeps_ret. exact Hb.
  - eapply keeps_bind; [apply Hbody; [left; reflexivity | exact Hb]|].
    intros b' Hb'. apply IH; [exact Hb'|].
    intros b'' y Hy. apply Hbody. right. exact Hy.
Qed.

(** *** The columns the stages write are columns of the schema *)

Lemma In_suffixed (index suffixes : list string) (label suffix : string) :
  In label index -> In suffix suffixes ->
  In (label ++ suffix)%string (suffixed index suffixes).
Proof.
  intros Hlabel Hsuffix. unfold suffixed. apply in_flat_map.
  exists suffix. split; [exact Hsuffix|].
  apply (in_map (fun label => (label ++ suffix)%string)), Hlabel.
Qed.

Lemma schema_flare (index : list string) (column : string) :
  In column flare_columns -> In column (jedi_columns index).
Proof. intros Hin. unfold jedi_columns. apply in_or_app. left. exact Hin. Qed.

Lemma schema_pair (index : list string) (column suffix : string) :
  In column (ion_permutations index) -> In suffix pair_suffixes ->
  In (column ++ suffix)%string (jedi_columns index).
Proof.
  intros Hc Hs. unfold jedi_columns. apply in_or_app. right.
  apply in_or_app. right. apply In_suffixed; assumption.
Qed.

Lemma schema_metric (index : list string) (column suffix : string) :
  In column (index ++ ion_permutations index) ->
  In suffix line_suffixes -> In suffix pair_suffixes ->
  In (column ++ suffix)%string (jedi_columns index).
Proof.
  intros Hc Hline Hpair. apply in_app_or in Hc as [Hc|Hc].
  - unfold jedi_columns. apply in_or_app. right. apply in_or_app. left.
    apply In_suffixed; assumption.
  - apply schema_pair; assumption.
Qed.

Ltac listed := solve [simpl; repeat first [left; reflexivity | right]].

Ltac chain rule :=
  eapply keeps_bind with (R := fun _ => True); [rule | intros ? _].

(** The table of a turn after the percent conversion: it has every line, and
    only lines and derived-pair columns. *)
Definition table_ok (df : DataFrame F) : Prop :=
  (forall c, In c lines -> In c (labels (df_columns df)))
  /\ (forall c, In c (labels (df_columns df)) ->
        In c (lines ++ ion_permutations lines)).

Lemma table_ok_set_column df label values :
  table_ok df -> In label (lines ++ ion_permutations lines) ->
  table_ok (set_column df label values).
Proof.
  intros (Hhas & Hin) Hlabel. unfold table_ok. simpl.
  destruct (has_label label (df_columns df)) eqn:E.
  - apply has_label_In in E. rewrite labels_assign_known by exact E.
    split; assumption.
  - rewrite labels_assign_new
      by (intros Hc; apply has_label_In in Hc; congruence).
    split.
    + intros c Hc. apply in_or_app. left. apply Hhas, Hc.
    + intros c Hc. apply in_app_or in Hc as [Hc|[<-|[]]]; [apply Hin, Hc | exact Hlabel].
Qed.

Lemma keeps_correct_pair peak df pair :
  In pair (ion_tuples eve_lines) -> table_ok df ->
  keeps (correct_pair light_curve_peak_match_subtract cfg peak df pair) table_ok.
Proof.
  intros Hpair Hdf. pose proof Hdf as (Hhas & Hin). unfold correct_pair.
  destruct (In_permutations2 _ _ Hpair) as (Hfrom & Hwith).
  rewrite (light_curve_present _ _ (Hhas _ Hfrom)),
    (light_curve_present _ _ (Hhas _ Hwith)).
  chain ltac:(apply keeps_lift; auto). chain ltac:(apply keeps_lift; auto).
  assert (Hlabel : In (by_label pair) (ion_permutations lines)).
  { apply in_map, Hpair. }
  destruct (_ || _).
  - chain ltac:(apply keeps_when, keeps_logger_info). apply keeps_ret, Hdf.
  - cbv zeta. chain ltac:(apply keeps_emit).
    chain ltac:(apply keeps_set_cell, schema_pair; [exact Hlabel | listed]).
    chain ltac:(apply keeps_set_cell, schema_pair; [exact Hlabel | listed]).
    chain ltac:(apply keeps_when, keeps_logger_info).
    apply keeps_ret, table_ok_set_column; [exact Hdf|].
    apply in_or_app. right. exact Hlabel.
Qed.

Lemma keeps_fit_column df dfk column :
  In column (lines ++ ion_permutations lines) ->
  In column (labels (df_columns df)) ->
  labels (df_columns dfk) = labels (df_columns df) ->
  keeps (fit_column automatic_fit_coronal_dimming_light_curve cfg dfk column)
    (fun df' => labels (df_columns df') = labels (df_columns df)).
Proof.
  intros Hschema Hin Hsame. unfold fit_column.
  rewrite light_curve_present by (rewrite Hsame; exact Hin).
  chain ltac:(apply keeps_lift; auto).
  destruct (all_null _).
  - chain ltac:(apply keeps_when, keeps_logger_info). apply keeps_ret, Hsame.
  - cbv zeta. chain ltac:(apply keeps_emit).
    chain ltac:(apply keeps_set_cell, schema_metric; [exact Hschema | listed | listed]).
    chain ltac:(apply keeps_set_cell, schema_metric; [exact Hschema | listed | listed]).
    chain ltac:(apply keeps_when, keeps_logger_info).
    apply keeps_ret. simpl. rewrite labels_assign_known by (rewrite Hsame; exact Hin).
    exact Hsame.
Qed.

Lemma keeps_parameterize_column peak df column :
  In column (lines ++ ion_permutations lines) ->
  In column (labels (df_columns df)) ->
  keeps
    (parameterize_column determine_dimming_depth determine_dimming_slope
       determine_dimming_duration cfg peak df column)
    (fun _ => True).
Proof.
  intros Hschema Hin. unfold parameterize_column.
  rewrite light_curve_present by exact Hin.
  chain ltac:(apply keeps_lift; auto).
  destruct (all_null _); [apply keeps_when, keeps_logger_info|].
  cbv zeta.
  repeat first
    [ chain ltac:(first
        [ apply keeps_emit
        | apply keeps_when, keeps_logger_info
        | apply keeps_set_cell, schema_metric; [exact Hschema | listed | listed] ])
    | apply keeps_when, keeps_logger_info ].
Qed.

(** Lines 226-227 write only columns the row already has. *)
Lemma keeps_store : keeps store_preflare_irradiance (fun _ => True).
Proof.
  unfold store_preflare_irradiance.
  eapply keeps_bind with (R := fun row => forall c, In c (labels row) -> In c schema).
  { intros s Hs. unfold read. split; [exact Hs|].
    intros c Hc. destruct Hs as (Hrow & _). rewrite <- Hrow. exact Hc. }
  intros row Hrow. cbv zeta.
  eapply keeps_bind with (R := fun _ => True).
  { apply keeps_step. intros s _. simpl. auto. }
  intros [l|] _.
  - destruct (Nat.eqb _ _).
    + apply keeps_for_each. intros [col v] Hcv. apply keeps_set_cell, Hrow.
      apply in_combine_l in Hcv. apply filter_In in Hcv. apply Hcv.
    + apply keeps_step. intros s _. simpl. repeat split; discriminate.
  - apply keeps_for_each. intros col Hcol. apply keeps_set_cell, Hrow.
    apply filter_In in Hcol. apply Hcol.
Qed.

Lemma keeps_convert left right :
  keeps (convert_to_percent (loc_slice left right eve_lines))
    (fun df => labels (df_columns df) = lines).
Proof.
  unfold convert_to_percent.
  eapply keeps_bind with (R := fun _ => True).
  { apply keeps_step. intros s _. simpl. auto. }
  intros [l|] _.
  - apply keeps_lift. intros df Hdf. eapply windowed_table_lines. exact Hdf.
  - apply keeps_step. intros s _. simpl. repeat split; discriminate.
Qed.

Lemma keeps_resolve flare previous :
  keeps
    (resolve_preflare_irradiance determine_preflare_irradiance cfg eve_lines
       flare previous)
    (fun _ => True).
Proof.
  apply keeps_preserved;
    unfold resolve_preflare_irradiance, recompute_preflare_irradiance,
      preflare_column; frame.
Qed.

Lemma keeps_removal peak df :
  table_ok df -> keeps (removal peak df) table_ok.
Proof.
  intros Hdf. unfold flare_removal. apply keeps_for_each_with; [exact Hdf|].
  intros dfk pair Hpair Hk. apply keeps_correct_pair; assumption.
Qed.

Lemma keeps_fitting df :
  table_ok df -> keeps (fitting df) table_ok.
Proof.
  intros (Hhas & Hin). unfold fit_light_curves.
  apply keeps_weaken
    with (R := fun df' => labels (df_columns df') = labels (df_columns df)).
  - apply keeps_for_each_with; [reflexivity|].
    intros dfk column Hcolumn Hk. apply keeps_fit_column; auto.
  - intros df' Hsame. unfold table_ok. rewrite Hsame. split; assumption.
Qed.

Lemma keeps_parameterization peak df :
  table_ok df -> keeps (parameterization peak df) (fun _ => True).
Proof.
  intros (Hhas & Hin). unfold parameterize. apply keeps_for_each.
  intros column Hcolumn. apply keeps_parameterize_column; auto.
Qed.

(** A turn of the loop keeps row and file well formed, whether it returns
    or raises. *)
Lemma turn_keeps i : keeps (turn i) (fun _ => True).
Proof.
  unfold process_flare. destruct (Nat.eqb i 0); [apply keeps_ret; exact I|].
  chain ltac:(apply keeps_flare_at).
  chain ltac:(apply keeps_set_cell, schema_flare; listed).
  chain ltac:(apply keeps_set_cell, schema_flare; listed).
  chain ltac:(apply keeps_set_cell, schema_flare; listed).
  chain ltac:(apply keeps_when, keeps_logger_info).
  chain ltac:(apply keeps_flare_at).
  chain ltac:(apply keeps_resolve).
  chain ltac:(apply keeps_read_local).
  chain ltac:(apply keeps_set_cell, schema_flare; listed).
  chain ltac:(apply keeps_read_local).
  chain ltac:(apply keeps_set_cell, schema_flare; listed).
  chain ltac:(apply keeps_store).
  chain ltac:(apply keeps_when, keeps_logger_info).
  chain ltac:(apply keeps_flare_at).
  chain ltac:(apply keeps_when, keeps_logger_info).
  chain ltac:(apply keeps_set_cell, schema_flare; listed).
  eapply keeps_bind with (R := fun _ => True); [apply keeps_lift; auto|].
  intros [|] _.
  - chain ltac:(apply keeps_to_csv_append).
    apply keeps_when, keeps_logger_info.
  - cbv zeta.
    chain ltac:(apply keeps_when, keeps_logger_info).
    eapply keeps_bind with (R := fun df => labels (df_columns df) = lines);
      [apply keeps_convert | intros df Hdf].
    chain ltac:(apply keeps_when, keeps_logger_info).
    assert (Htable : table_ok df).
    { unfold table_ok. rewrite Hdf. split; [auto|].
      intros c Hc. apply in_or_app. left. exact Hc. }
    eapply keeps_bind with (R := table_ok);
      [apply keeps_removal, Htable | intros df1 Hdf1].
    eapply keeps_bind with (R := table_ok);
      [apply keeps_fitting, Hdf1 | intros df2 Hdf2].
    chain ltac:(apply keeps_parameterization, Hdf2).
    chain ltac:(apply keeps_to_csv_append).
    apply keeps_when, keeps_logger_info.
Qed.

(** ** The run as a whole *)

Lemma setup_run :
  exists s0,
    setup cfg eve_lines blank = (Ok tt, s0)
    /\ schema_ok s0
    /\ csv_file s0 = [Header schema; Row (jedi_row_definition lines)].
Proof.
  assert (Hfile : file_ok (F := F) schema
                    [Header (labels (jedi_row_definition (F := F) lines));
                     Row (jedi_row_definition lines)]).
  { exists [Row (jedi_row_definition lines)].
    rewrite labels_jedi_row_definition. split; [reflexivity|].
    constructor; [|constructor]. eexists. split; [reflexivity|].
    apply labels_jedi_row_definition. }
  unfold setup, when, logger_info. destruct (verbose cfg);
    cbv beta iota zeta delta
      [bind ret emit set_jedi_row set_csv_file set_preflare_irradiance blank
       preflare_irradiance preflare_window_start preflare_window_end
       jedi_row csv_file trace];
    (eexists; split; [reflexivity|]; split;
     [|cbv beta iota delta [csv_file]; rewrite labels_jedi_row_definition;
       reflexivity]);
    (split; [apply labels_jedi_row_definition | exact Hfile]).
Qed.

Lemma turn_zero s : turn 0 s = (Ok tt, s).
Proof. reflexivity. Qed.

(** However a run cut after [n] turns ends, the row and the file are well
    formed. *)
Lemma run_schema n : schema_ok (snd (turns n)).
Proof.
  induction n as [|n IH].
  - unfold run_turns, flare_loop. simpl. rewrite bind_run.
    destruct setup_run as (s0 & -> & Hinv & _). exact Hinv.
  - rewrite run_turns_S. destruct (turns n) as [[[]|e] s]; [|exact IH].
    pose proof (@turn_keeps n s IH) as Hturn.
    destruct (turn n s) as [[[]|e] s']; [apply Hturn | exact Hturn].
Qed.

Lemma run_step_file n :
  csv_file (snd (turns (S n)))
  = csv_file (snd (turns n))
    ++ (if is_ok (fst (turns (S n))) && negb (Nat.eqb n 0)
        then [Row (jedi_row (snd (turns (S n))))] else []).
Proof.
  rewrite run_turns_S. destruct (turns n) as [[[]|e] s].
  - destruct n as [|n].
    + rewrite turn_zero. simpl. symmetry. apply app_nil_r.
    + rewrite andb_true_r. apply turn_appends. discriminate.
  - simpl. symmetry. apply app_nil_r.
Qed.

Lemma file_after n :
  exists rows,
    csv_file (snd (turns n))
    = Header schema :: Row (jedi_row_definition lines) :: rows
    /\ List.length rows <= n - 1
    /\ Forall (is_row_over schema) rows.
Proof.
  induction n as [|n (rows & Hfile & Hlen & Hrows)].
  - exists []. unfold run_turns, flare_loop. simpl for_each. rewrite bind_run.
    destruct setup_run as (s0 & -> & _ & Hfile). simpl.
    split; [exact Hfile|]. split; [simpl; lia | constructor].
  - rewrite run_step_file, Hfile.
    destruct (is_ok (fst (turns (S n))) && negb (Nat.eqb n 0)) eqn:E.
    + exists (rows ++ [Row (jedi_row (snd (turns (S n))))]).
      split; [reflexivity|]. apply andb_true_iff in E as (_ & Hn).
      apply negb_true_iff, Nat.eqb_neq in Hn. split.
      * rewrite length_app. simpl. lia.
      * apply Forall_app. split; [exact Hrows|]. constructor; [|constructor].
        eexists. split; [reflexivity|]. apply (run_schema (S n)).
    + exists rows. rewrite app_nil_r. split; [reflexivity|].
      split; [lia | exact Hrows].
Qed.

(** The shape of the catalog file.  Whatever the inputs and however the run
    ends, the file is: the header (line 172), the row as first defined, all
    NaN, written with it, and then flare rows, each with exactly the columns
    of the header in the header's order (no assignment of a turn adds or
    moves a column of the row).  After [n] turns of the loop there are at
    most [n - 1] flare rows; the finished run on [N] flares leaves at most
    [N - 2], since turn 0 writes none and the turn of the last flare
    raises before writing. *)
Theorem catalog_file_shape :
  (forall n, exists rows,
     csv_file (snd (turns n))
     = Header (jedi_columns lines) :: Row (jedi_row_definition lines) :: rows
     /\ List.length rows <= n - 1
     /\ Forall (is_row_over (jedi_columns lines)) rows)
  /\ (exists rows,
        csv_file (snd catalog)
        = Header (jedi_columns lines) :: Row (jedi_row_definition lines) :: rows
        /\ List.length rows <= List.length goes_flare_events - 2
        /\ Forall (is_row_over (jedi_columns lines)) rows).
Proof.
  split; [exact file_after|].
  change catalog with (turns (List.length goes_flare_events)).
  destruct (List.length goes_flare_events) as [|[|n]] eqn:HN.
  - destruct (file_after 0) as (rows & Hfile & Hlen & Hrows).
    exists rows. repeat split; [exact Hfile | lia | exact Hrows].
  - destruct (file_after 1) as (rows & Hfile & Hlen & Hrows).
    exists rows. repeat split; [exact Hfile | lia | exact Hrows].
  - destruct (file_after (S n)) as (rows & Hfile & Hlen & Hrows).
    exists rows. split; [|split; [lia | exact Hrows]].
    rewrite <- Hfile, run_turns_S.
    destruct (turns (S n)) as [[[]|e] s]; [|reflexivity].
    apply last_turn_raises; [discriminate | congruence].
Qed.

(** The file only grows, by at most one line per turn.  After turn [n] the
    file is the file before it followed, when the turn returned and [n] is
    not 0, by one line: the row as the turn leaves it.  A turn that raises,
    and every turn after a raise, adds nothing. *)
Theorem file_only_grows (n : nat) :
  csv_file (snd (turns (S n)))
  = csv_file (snd (turns n))
    ++ (if is_ok (fst (turns (S n))) && negb (Nat.eqb n 0)
        then [Row (jedi_row (snd (turns (S n))))] else []).
Proof. exact (run_step_file n). Qed.

(** A run returns exactly when the event list holds fewer than two flares;
    the catalog it then leaves is the header and the all-NaN row.  On two or
    more flares every run ends in an exception. *)
Theorem run_returns_iff_fewer_than_two_flares :
  (is_ok (fst catalog) = true <-> List.length goes_flare_events < 2)
  /\ (List.length goes_flare_events < 2 ->
      csv_file (snd catalog)
      = [Header (jedi_columns lines); Row (jedi_row_definition lines)]).
Proof.
  assert (Hshort : List.length goes_flare_events < 2 ->
            is_ok (fst catalog) = true
            /\ csv_file (snd catalog)
               = [Header schema; Row (jedi_row_definition lines)]).
  { intros Hlen. change catalog with (turns (List.length goes_flare_events)).
    assert (Hzero : is_ok (fst (turns 0)) = true
                    /\ csv_file (snd (turns 0))
                       = [Header schema; Row (jedi_row_definition lines)]).
    { unfold run_turns, flare_loop. simpl for_each. rewrite bind_run.
      destruct setup_run as (s0 & -> & _ & Hfile). split; [reflexivity | exact Hfile]. }
    destruct (List.length goes_flare_events) as [|[|n]]; [exact Hzero| |lia].
    rewrite run_turns_S. destruct (turns 0) as [[[]|e] s].
    - rewrite turn_zero. exact Hzero.
    - exact Hzero. }
  split; [split|].
  - intros Hok. destruct (le_lt_dec 2 (List.length goes_flare_events)) as [Hlong|Hlt];
      [|exact Hlt].
    pose proof (run_stops_at_last_flare determine_preflare_irradiance
                  light_curve_peak_match_subtract
                  automatic_fit_coronal_dimming_light_curve
                  determine_dimming_depth determine_dimming_slope
                  determine_dimming_duration cfg eve_lines goes_flare_events Hlong)
      as Hstop.
    congruence.
  - intros Hlen. apply Hshort, Hlen.
  - intros Hlen. apply Hshort, Hlen.
Qed.

(** ** The baseline in the row (lines 226-227) *)

Lemma store_loop (kvs : list (string * option F)) :
  NoDup (map fst kvs) ->
  forall s,
    exists s',
      for_each kvs (fun cv => set_cell (fst cv) (cell_of_float (snd cv))) s
      = (Ok tt, s')
      /\ carried s' = carried s
      /\ (forall k v, In (k, v) kvs -> cell_at k s' = Some (cell_of_float v))
      /\ (forall target, ~ In target (map fst kvs) ->
            cell_at target s' = cell_at target s)
      /\ ((forall k, In k (map fst kvs) -> In k (labels (jedi_row s))) ->
          labels (jedi_row s') = labels (jedi_row s)).
Proof.
  induction kvs as [|[k v] kvs IH]; intros Hnodup s.
  - exists s. simpl. repeat split; try reflexivity. intros ? ? [].
  - simpl in Hnodup. inversion Hnodup as [|? ? Hk Hrest]; subst.
    simpl for_each. rewrite bind_run.
    destruct (set_cell k (cell_of_float v) s) as [r s1] eqn:Hset.
    assert (Hs1 : r = Ok tt /\ carried s1 = carried s
                  /\ jedi_row s1 = assign k (cell_of_float v) (jedi_row s)).
    { unfold set_cell, bind, read, set_jedi_row in Hset.
      injection Hset as <- <-. repeat split. }
    destruct Hs1 as (-> & Hcarried & Hrow).
    destruct (IH Hrest s1) as (s' & Hrun & Hc & Hcells & Hothers & Hlabels).
    exists s'. split; [exact Hrun|]. split; [congruence|]. split; [|split].
    + intros k' v' [[= <- <-]|Hin].
      * rewrite Hothers by exact Hk. unfold cell_at. rewrite Hrow.
        apply lookup_assign_same.
      * apply Hcells, Hin.
    + intros target Hout. simpl in Hout.
      rewrite Hothers by tauto. unfold cell_at. rewrite Hrow.
      apply lookup_assign_other. intros ->. tauto.
    + intros Hknown.
      assert (Hsame : labels (jedi_row s1) = labels (jedi_row s)).
      { rewrite Hrow. apply labels_assign_known, Hknown. left. reflexivity. }
      rewrite <- Hsame. apply Hlabels. intros k' Hk'. rewrite Hsame.
      apply Hknown. right. exact Hk'.
Qed.

Lemma NoDup_suffixed_lines (suffix : string) (index : list string) :
  NoDup index -> NoDup (map (fun label => (label ++ suffix)%string) index).
Proof.
  induction 1 as [|label index Hout Hnodup IH]; simpl; constructor; [|exact IH].
  intros Hin. apply in_map_iff in Hin as (label' & E & Hin).
  apply append_inj_r in E. subst. exact (Hout Hin).
Qed.

(** Lines 226-227.  On a row with the columns of the schema, when the
    columns whose label contains ['Pre-Flare Irradiance'] are exactly the
    lines' own, in the order of the lines, and the lines are distinct: a
    hold-over irradiance with one value per line is stored line by line,
    each value in the column of its own line (NaN for a missing value); no
    column is added and every column whose label does not contain that text
    is left alone.  A hold-over irradiance of any other length is refused
    and the row is left as it was. *)
Theorem baseline_stored_per_line (baseline : list (option F)) (s : State F) :
  labels (jedi_row s) = jedi_columns lines ->
  filter (contains "Pre-Flare Irradiance") (jedi_columns lines)
  = map (fun line => (line ++ " Pre-Flare Irradiance [W/m2]")%string) lines ->
  NoDup lines ->
  preflare_irradiance s = Some baseline ->
  if Nat.eqb (List.length baseline) (List.length lines) then
    exists s',
      store_preflare_irradiance s = (Ok tt, s')
      /\ carried s' = carried s
      /\ labels (jedi_row s') = labels (jedi_row s)
      /\ (forall i line v,
            nth_error lines i = Some line -> nth_error baseline i = Some v ->
            cell_at (line ++ " Pre-Flare Irradiance [W/m2]") s'
            = Some (cell_of_float v))
      /\ (forall target,
            contains "Pre-Flare Irradiance" target = false ->
            cell_at target s' = cell_at target s)
  else store_preflare_irradiance s = (Raise ValueError, s).
Proof.
  intros Hrow Hcols Hnodup Hbase.
  assert (Hstore : store_preflare_irradiance s
                   = if Nat.eqb (List.length baseline) (List.length lines) then
                       for_each
                         (combine
                            (map (fun line =>
                                    (line ++ " Pre-Flare Irradiance [W/m2]")%string)
                               lines) baseline)
                         (fun cv => set_cell (fst cv) (cell_of_float (snd cv))) s
                     else (Raise ValueError, s)).
  { unfold store_preflare_irradiance. rewrite bind_run. unfold read at 1.
    cbv beta iota zeta. rewrite bind_run. unfold read at 1. cbv beta iota.
    rewrite Hbase, Hrow, Hcols, length_map.
    destruct (Nat.eqb _ _); reflexivity. }
  rewrite Hstore. clear Hstore.
  destruct (Nat.eqb_spec (List.length baseline) (List.length lines)) as [Hlen|_];
    [|reflexivity].
  set (columns := map (fun line => (line ++ " Pre-Flare Irradiance [W/m2]")%string)
                    lines) in *.
  assert (Hkeys : map fst (combine columns baseline) = columns).
  { apply map_fst_combine. unfold columns. rewrite length_map. exact Hlen. }
  destruct (@store_loop (combine columns baseline)) with (s := s)
    as (s' & Hrun & Hcarried & Hcells & Hothers & Hlabels).
  { rewrite Hkeys. apply NoDup_suffixed_lines, Hnodup. }
  exists s'. split; [exact Hrun|]. split; [exact Hcarried|]. split; [|split].
  - apply Hlabels. intros k Hk. rewrite Hkeys in Hk. rewrite Hrow.
    rewrite <- Hcols in Hk. apply filter_In in Hk. apply Hk.
  - intros i line v Hline Hv. apply Hcells.
    apply nth_error_In with (n := i). apply nth_error_combine; [|exact Hv].
    unfold columns. rewrite nth_error_map, Hline. reflexivity.
  - intros target Hplain. apply Hothers. rewrite Hkeys, <- Hcols.
    intros Hin. apply filter_In in Hin. destruct Hin as (_ & Hin). congruence.
Qed.

(** ** The parameterization in a turn (lines 328-447) *)

Local Abbreviation events := (fun st : State F => parameter_events (trace st)).

Lemma set_cell_events label (v : cell F) : preserves events (set_cell label v).
Proof. intros s. reflexivity. Qed.

Lemma emit_other_event (e : event F) :
  is_parameter_call e = false -> preserves events (emit e).
Proof.
  intros He s. unfold emit, parameter_events. simpl. rewrite filter_app. simpl.
  rewrite He. apply app_nil_r.
Qed.

Lemma logger_info_events message : preserves events (logger_info cfg message).
Proof.
  unfold logger_info. destruct (verbose cfg).
  - apply emit_other_event. reflexivity.
  - intros s. reflexivity.
Qed.

Hint Resolve set_cell_events logger_info_events : frame.
Hint Extern 1 (preserves _ (emit _)) =>
  apply emit_other_event; reflexivity : frame.










End Stages.

(** * The stages and the run on the small instance *)

Section MoreRuns.
Import Toy.

Lemma fitting_stage_witness :
  exists df' s',
    fit_light_curves fit chatty three_lines blank = (Ok df', s')
    /\ labels (df_columns df') = ["17.1"; "19.5"; "30.4"]
    /\ calls (trace s')
       = [AutomaticFit "17.1" (curve three_lines "17.1");
          AutomaticFit "19.5" (curve three_lines "19.5")].
Proof.
  destruct (fitting_stage_fits_each_column fit chatty three_lines blank)
    as (df' & s' & Hrun & _ & Hlabels & _ & _ & Hcalls).
  - repeat (constructor; [simpl; intuition discriminate|]). constructor.
  - exists df', s'. split; [exact Hrun|]. split; [exact Hlabels | exact Hcalls].
Defined.

Lemma removal_stage_witness :
  exists df' s',
    flare_removal peak_match_subtract chatty three_lines 18000 three_lines blank
    = (Ok df', s')
    /\ labels (df_columns df')
       = ["17.1"; "19.5"; "30.4"; "17.1 by 19.5"; "19.5 by 17.1"].
Proof.
  destruct (removal_stage_adds_pair_columns peak_match_subtract chatty
              three_lines 18000 three_lines blank)
    as (df' & s' & Hrun & _ & Hlabels & _).
  - reflexivity.
  - vm_compute. repeat (constructor; [simpl; intuition discriminate|]). constructor.
  - intros pair Hin Hline. vm_compute in Hin.
    repeat (destruct Hin as [<-|Hin]; [vm_compute in Hline; intuition discriminate|]).
    exact Hin.
  - exists df', s'. split; [exact Hrun | exact Hlabels].
Defined.

Lemma baseline_stored_witness :
  exists s',
    store_preflare_irradiance holding_two = (Ok tt, s')
    /\ cell_at "17.1 Pre-Flare Irradiance [W/m2]" s' = Some (Num (q 2)).
Proof.
  pose proof (baseline_stored_per_line one_line (baseline := [Some (q 2)])
                holding_two) as Hstored.
  change (Nat.eqb (List.length [Some (q 2)])
            (List.length (labels (df_columns one_line)))) with true in Hstored.
  destruct Hstored as (s' & Hrun & _ & _ & Hcell & _).
  - vm_compute. reflexivity.
  - vm_compute. reflexivity.
  - repeat (constructor; [simpl; intuition discriminate|]). constructor.
  - reflexivity.
  - exists s'. split; [exact Hrun|].
    exact (Hcell 0 "17.1" (Some (q 2)) eq_refl eq_refl).
Defined.


Lemma fresh_preflare_witness :
  exists s',
    recompute_preflare_irradiance preflare chatty one_line (flare 300) blank
    = (Ok tt, s')
    /\ (preflare_window_start s', preflare_window_end s')
       = (Some 3600%Z, Some 18000%Z).
Proof.
  destruct (fresh_preflare_irradiance preflare chatty one_line (flare 300) blank)
    as (s' & Hrun & _ & Hwindow & _).
  - repeat (constructor; [simpl; intuition discriminate|]). constructor.
  - exists s'. split; [exact Hrun | exact Hwindow].
Defined.

Lemma parameterization_stage_witness :
  exists s',
    parameterize depth slope duration chatty 18000 three_lines blank = (Ok tt, s')
    /\ cell_at "17.1 Slope Start Time" s' = Some (Instant 18000)
    /\ cell_at "30.4 Slope Start Time" s' = None.
Proof.
  destruct (parameterization_stage_calls depth slope duration chatty 18000
              three_lines blank)
    as (s' & Hrun & _ & _ & Hcells & Hkept).
  - repeat (constructor; [simpl; intuition discriminate|]). constructor.
  - exists s'. split; [exact Hrun|]. split.
    + apply (Hcells "17.1"); [simpl; tauto | reflexivity].
    + rewrite Hkept; [reflexivity|].
      intros column suffix Hcolumn Hnull Hsuffix.
      simpl in Hcolumn. destruct Hcolumn as [<-|[<-|[<-|[]]]];
        try (vm_compute in Hnull; discriminate Hnull);
        simpl in Hsuffix;
        repeat (destruct Hsuffix as [<-|Hsuffix]; [discriminate|]);
        destruct Hsuffix.
Defined.
End MoreRuns.
